(** * LC3.c: a shallow embedding of the LC-3 simulator

    The machine state of LC3.c is a set of C globals ([mcr], [memory],
    [regs], [pc], [ir], [psr], [display]); every handler reads and writes
    them.  Here the globals are one record threaded through the handlers.

    Integer model.  [int16_t] values are signed integers in
    [-32768, 32767]; an assignment to an [int16_t] object is the
    conversion [int16].  Operands of C operators are promoted to a 32-bit
    [int]; a left shift is taken modulo 2^32 ([int32]) and a right shift
    of a negative value is arithmetic, as the usual compilers do.

    Arrays.  [memory] has 65536 cells and [regs] has 8; a subscript
    outside [0, size) is an access outside the object, which C leaves
    undefined.  Array accesses are therefore fallible here: they return a
    [fault] naming the offending subscript. *)

From Stdlib Require Import ZArith List Lia Bool.
From Stdlib Require Import Strings.Byte.
From stdpp Require Import base gmap list.
Import ListNotations.
Local Open Scope Z_scope.

(** ** C integers *)

Definition int16 (v : Z) : Z := (v + 32768) mod 65536 - 32768.
Definition int32 (v : Z) : Z := (v + 2147483648) mod 4294967296 - 2147483648.

(** The 16-bit address an [int16_t] stands for. *)
Definition u16 (v : Z) : Z := v mod 65536.

(** ** The decoding macros (lines 16-28) *)

Definition OPCODE (instr : Z) : Z := Z.land (Z.shiftr instr 12) 15.
Definition REG1 (instr : Z) : Z := Z.land (Z.shiftr instr 9) 7.
Definition REG2 (instr : Z) : Z := Z.land (Z.shiftr instr 6) 7.
Definition REG3 (instr : Z) : Z := Z.land instr 7.
Definition IMMBIT (instr : Z) : Z := Z.shiftr (Z.land instr 32) 5.
Definition IMMVAL (instr : Z) : Z := Z.shiftr (int32 (Z.shiftl instr 27)) 27.
Definition PCOFFSET11 (instr : Z) : Z := Z.shiftr (int32 (Z.shiftl instr 21)) 21.
Definition PCOFFSET9 (instr : Z) : Z := Z.shiftr (int32 (Z.shiftl instr 23)) 23.
Definition PCOFFSET6 (instr : Z) : Z := Z.shiftr (int32 (Z.shiftl instr 26)) 26.
Definition BRN (instr : Z) : Z := Z.land (Z.shiftr instr 11) 1.
Definition BRZ (instr : Z) : Z := Z.land (Z.shiftr instr 10) 1.
Definition BRP (instr : Z) : Z := Z.land (Z.shiftr instr 9) 1.
Definition TRPVECT8 (instr : Z) : Z := Z.shiftr (int32 (Z.shiftl instr 24)) 24.

Definition REG_COUNT : Z := 8.
Definition ADD_OP : Z := 1.
Definition AND_OP : Z := 5.
Definition LD_OP : Z := 2.
Definition LDI_OP : Z := 10.
Definition LDR_OP : Z := 6.
Definition BR_OP : Z := 0.
Definition ST_OP : Z := 3.
Definition STI_OP : Z := 11.
Definition STR_OP : Z := 7.
Definition LEA_OP : Z := 14.
Definition JSR_OP : Z := 4.
Definition RET_OP : Z := 12.
Definition TRAP_OP : Z := 15.

Definition DSR : Z := int16 65028.            (* (int16_t) 0xFE04 *)
Definition DISPLAY_READY : Z := 32768.        (* 0x8000 *)
Definition DISPLAY_SET : Z := 0.
Definition DDR : Z := int16 65030.            (* (int16_t) 0xFE06 *)
Definition MCR_ADRESS : Z := int16 65534.     (* (int16_t) 0xFFFE *)
Definition MCR_POWER (mcr : Z) : Z := Z.shiftr (Z.land mcr 32768) 15.

(** ** The globals *)

Record PSR := { junk : Z; psr_p : Z; psr_n : Z; psr_z : Z }.
Record Display := { status : Z; data : Z }.

Record LC3 := {
  mcr : Z;
  memory : gmap Z Z;
  regs : list Z;
  pc : Z;
  ir : Z;
  psr : PSR;
  display : Display
}.

Definition with_mcr (s : LC3) (v : Z) : LC3 :=
  {| mcr := v; memory := memory s; regs := regs s; pc := pc s; ir := ir s;
     psr := psr s; display := display s |}.
Definition with_memory (s : LC3) (m : gmap Z Z) : LC3 :=
  {| mcr := mcr s; memory := m; regs := regs s; pc := pc s; ir := ir s;
     psr := psr s; display := display s |}.
Definition with_regs (s : LC3) (r : list Z) : LC3 :=
  {| mcr := mcr s; memory := memory s; regs := r; pc := pc s; ir := ir s;
     psr := psr s; display := display s |}.
Definition with_pc (s : LC3) (v : Z) : LC3 :=
  {| mcr := mcr s; memory := memory s; regs := regs s; pc := v; ir := ir s;
     psr := psr s; display := display s |}.
Definition with_ir (s : LC3) (v : Z) : LC3 :=
  {| mcr := mcr s; memory := memory s; regs := regs s; pc := pc s; ir := v;
     psr := psr s; display := display s |}.
Definition with_psr (s : LC3) (c : PSR) : LC3 :=
  {| mcr := mcr s; memory := memory s; regs := regs s; pc := pc s; ir := ir s;
     psr := c; display := display s |}.
Definition with_display (s : LC3) (d : Display) : LC3 :=
  {| mcr := mcr s; memory := memory s; regs := regs s; pc := pc s; ir := ir s;
     psr := psr s; display := d |}.

(** Static storage is zero-initialised. *)
Definition globals : LC3 :=
  {| mcr := 0; memory := ∅; regs := replicate 8 0; pc := 0; ir := 0;
     psr := {| junk := 0; psr_p := 0; psr_n := 0; psr_z := 0 |};
     display := {| status := 0; data := 0 |} |}.

(** ** Fallible array accesses *)

Inductive fault :=
| MemOutOfBounds (i : Z)      (* memory[i] with i outside 0..65535 *)
| RegOutOfBounds (i : Z)      (* regs[i] with i outside the register file *)
| ShortFile.                  (* fewer than two bytes to read the start address from *)

Inductive res (A : Type) :=
| Ok (a : A)
| Fault (f : fault).
Arguments Ok {A} a.
Arguments Fault {A} f.

Definition bind {A B : Type} (r : res A) (k : A -> res B) : res B :=
  match r with
  | Ok a => k a
  | Fault f => Fault f
  end.

Notation "'do' x <~ e ; k" := (bind e (fun x => k))
  (at level 10, x name, e at level 100, k at level 200).

Definition in_memory (i : Z) : bool := (0 <=? i) && (i <? 65536).

Definition mem_get (m : gmap Z Z) (i : Z) : res Z :=
  if in_memory i then Ok (default 0 (m !! i)) else Fault (MemOutOfBounds i).

Definition mem_set (m : gmap Z Z) (i v : Z) : res (gmap Z Z) :=
  if in_memory i then Ok (<[i := v]> m) else Fault (MemOutOfBounds i).

Definition reg_get (r : list Z) (i : Z) : res Z :=
  if 0 <=? i then
    match r !! Z.to_nat i with
    | Some v => Ok v
    | None => Fault (RegOutOfBounds i)
    end
  else Fault (RegOutOfBounds i).

Definition reg_set (r : list Z) (i v : Z) : res (list Z) :=
  if (0 <=? i) && (i <? Z.of_nat (length r))
  then Ok (<[Z.to_nat i := v]> r)
  else Fault (RegOutOfBounds i).

(** ** init and the condition codes (lines 249-260) *)

Definition init (s : LC3) : LC3 :=
  let s := with_display s {| status := int16 32768; data := data (display s) |} in
  let s := with_display s {| status := status (display s); data := int16 0 |} in
  let s := with_psr s {| junk := junk (psr s); psr_p := psr_p (psr s);
                         psr_n := psr_n (psr s); psr_z := 1 |} in
  with_mcr s (int16 32768).

Definition updatePSR_CC (val : Z) (s : LC3) : LC3 :=
  if val <? 0 then
    with_psr s {| junk := junk (psr s); psr_p := 0; psr_n := 1; psr_z := 0 |}
  else if val =? 0 then
    with_psr s {| junk := junk (psr s); psr_p := 0; psr_n := 0; psr_z := 1 |}
  else if 0 <? val then
    with_psr s {| junk := junk (psr s); psr_p := 1; psr_n := 0; psr_z := 0 |}
  else s.

(** ** The instruction handlers (lines 277-508)

    Each handler is the C function of the same name: locals first, then
    the statements in order.  [regs[d] = e; updatePSR_CC(regs[d]);] writes
    the register and reads it back, as the source does. *)

Definition addImm (s : LC3) : res LC3 :=
  let dest_reg := int16 (REG1 (ir s)) in
  let src_reg := int16 (REG2 (ir s)) in
  let imm_val := int16 (IMMVAL (ir s)) in
  do a <~ reg_get (regs s) src_reg;
  do r <~ reg_set (regs s) dest_reg (int16 (a + imm_val));
  let s := with_regs s r in
  do v <~ reg_get (regs s) dest_reg;
  Ok (updatePSR_CC v s).

Definition addRegs (s : LC3) : res LC3 :=
  let dest_reg := int16 (REG1 (ir s)) in
  let src_reg1 := int16 (REG2 (ir s)) in
  let src_reg2 := int16 (REG3 (ir s)) in
  do a <~ reg_get (regs s) src_reg1;
  do b <~ reg_get (regs s) src_reg2;
  do r <~ reg_set (regs s) dest_reg (int16 (a + b));
  let s := with_regs s r in
  do v <~ reg_get (regs s) dest_reg;
  Ok (updatePSR_CC v s).

Definition andImm (s : LC3) : res LC3 :=
  let dest_reg := int16 (REG1 (ir s)) in
  let src_reg1 := int16 (REG2 (ir s)) in
  let imm_val := int16 (IMMVAL (ir s)) in
  do a <~ reg_get (regs s) src_reg1;
  do r <~ reg_set (regs s) dest_reg (int16 (Z.land a imm_val));
  let s := with_regs s r in
  do v <~ reg_get (regs s) dest_reg;
  Ok (updatePSR_CC v s).

Definition andRegs (s : LC3) : res LC3 :=
  let dest_reg := int16 (REG1 (ir s)) in
  let src_reg1 := int16 (REG2 (ir s)) in
  let src_reg2 := int16 (REG3 (ir s)) in
  do a <~ reg_get (regs s) src_reg1;
  do b <~ reg_get (regs s) src_reg2;
  do r <~ reg_set (regs s) dest_reg (int16 (Z.land a b));
  let s := with_regs s r in
  do v <~ reg_get (regs s) dest_reg;
  Ok (updatePSR_CC v s).

(** The C function [not]; the plain name is the negation of the logic. *)
Definition not_ (s : LC3) : res LC3 :=
  let dest_reg := int16 (REG1 (ir s)) in
  let src_reg := int16 (REG2 (ir s)) in
  do a <~ reg_get (regs s) src_reg;
  do r <~ reg_set (regs s) dest_reg (int16 (Z.lnot a));
  let s := with_regs s r in
  do v <~ reg_get (regs s) dest_reg;
  Ok (updatePSR_CC v s).

Definition br (s : LC3) : res LC3 :=
  let n := int16 (BRN (ir s)) in
  let z := int16 (BRZ (ir s)) in
  let p := int16 (BRP (ir s)) in
  let pcoffset := int16 (PCOFFSET9 (ir s)) in
  if negb (Z.lor (Z.lor (Z.land (psr_n (psr s)) n) (Z.land (psr_z (psr s)) z))
                 (Z.land (psr_p (psr s)) p) =? 0)
  then Ok (with_pc s (int16 (pc s + pcoffset)))
  else Ok s.

Definition ld (s : LC3) : res LC3 :=
  let dest_reg := int16 (REG1 (ir s)) in
  let pcoffset := int16 (PCOFFSET9 (ir s)) in
  let src_adress := int16 (pc s + pcoffset) in
  do x <~ (if src_adress =? DSR then Ok (status (display s))
           else if src_adress =? DDR then Ok (data (display s))
           else if src_adress =? MCR_ADRESS then Ok (mcr s)
           else mem_get (memory s) src_adress);
  do r <~ reg_set (regs s) dest_reg x;
  let s := with_regs s r in
  do v <~ reg_get (regs s) dest_reg;
  Ok (updatePSR_CC v s).

Definition ldi (s : LC3) : res LC3 :=
  let dest_reg := int16 (REG1 (ir s)) in
  let pcoffset := int16 (PCOFFSET9 (ir s)) in
  let src_adress1 := int16 (pc s + pcoffset) in
  do src_adress2 <~ (if src_adress1 =? DSR then Ok (status (display s))
                     else if src_adress1 =? DDR then Ok (data (display s))
                     else if src_adress1 =? MCR_ADRESS then Ok (mcr s)
                     else mem_get (memory s) src_adress1);
  do x <~ (if src_adress2 =? DSR then Ok (status (display s))
           else if src_adress2 =? DDR then Ok (data (display s))
           else if src_adress2 =? MCR_ADRESS then Ok (mcr s)
           else mem_get (memory s) src_adress2);
  do r <~ reg_set (regs s) dest_reg x;
  let s := with_regs s r in
  do v <~ reg_get (regs s) dest_reg;
  Ok (updatePSR_CC v s).

Definition ldr (s : LC3) : res LC3 :=
  let dest_reg := int16 (REG1 (ir s)) in
  let base_reg := int16 (REG2 (ir s)) in
  let pcoffset := int16 (PCOFFSET6 (ir s)) in
  do b <~ reg_get (regs s) base_reg;
  let scr_adress := int16 (b + pcoffset) in
  do x <~ (if scr_adress =? DSR then Ok (status (display s))
           else if scr_adress =? DDR then Ok (data (display s))
           else if scr_adress =? MCR_ADRESS then Ok (mcr s)
           else mem_get (memory s) scr_adress);
  do r <~ reg_set (regs s) dest_reg x;
  let s := with_regs s r in
  do v <~ reg_get (regs s) dest_reg;
  Ok (updatePSR_CC v s).

Definition st (s : LC3) : res LC3 :=
  let src_reg := int16 (REG1 (ir s)) in
  let pcoffset := int16 (PCOFFSET9 (ir s)) in
  let dest_adress := int16 (pc s + pcoffset) in
  do x <~ reg_get (regs s) src_reg;
  if dest_adress =? DSR then
    Ok (with_display s {| status := x; data := data (display s) |})
  else if dest_adress =? DDR then
    let s := with_display s {| status := status (display s); data := x |} in
    Ok (with_display s {| status := int16 DISPLAY_SET; data := data (display s) |})
  else if dest_adress =? MCR_ADRESS then
    Ok (with_mcr s x)
  else
    do m <~ mem_set (memory s) dest_adress x;
    Ok (with_memory s m).

Definition sti (s : LC3) : res LC3 :=
  let src_reg := int16 (REG1 (ir s)) in
  let pcoffset := int16 (PCOFFSET9 (ir s)) in
  let dest_adress1 := int16 (pc s + pcoffset) in
  do dest_adress2 <~ (if dest_adress1 =? DSR then Ok (status (display s))
                      else if dest_adress1 =? DDR then Ok (data (display s))
                      else if dest_adress1 =? MCR_ADRESS then Ok (mcr s)
                      else mem_get (memory s) dest_adress1);
  do x <~ reg_get (regs s) src_reg;
  if dest_adress2 =? DSR then
    Ok (with_display s {| status := x; data := data (display s) |})
  else if dest_adress2 =? DDR then
    let s := with_display s {| status := status (display s); data := x |} in
    Ok (with_display s {| status := int16 DISPLAY_SET; data := data (display s) |})
  else if dest_adress2 =? MCR_ADRESS then
    Ok (with_mcr s x)
  else
    do m <~ mem_set (memory s) dest_adress2 x;
    Ok (with_memory s m).

Definition str (s : LC3) : res LC3 :=
  let src_reg := int16 (REG1 (ir s)) in
  let base_reg := int16 (REG2 (ir s)) in
  let pcoffset := int16 (PCOFFSET6 (ir s)) in
  do b <~ reg_get (regs s) base_reg;
  let dest_adress := int16 (b + pcoffset) in
  do x <~ reg_get (regs s) src_reg;
  if dest_adress =? DSR then
    Ok (with_display s {| status := x; data := data (display s) |})
  else if dest_adress =? DDR then
    let s := with_display s {| status := status (display s); data := x |} in
    Ok (with_display s {| status := int16 DISPLAY_SET; data := data (display s) |})
  else if dest_adress =? MCR_ADRESS then
    Ok (with_mcr s x)
  else
    do m <~ mem_set (memory s) dest_adress x;
    Ok (with_memory s m).

Definition lea (s : LC3) : res LC3 :=
  let dest_reg := int16 (REG1 (ir s)) in
  let pcoffset := int16 (PCOFFSET9 (ir s)) in
  do r <~ reg_set (regs s) dest_reg (int16 (pc s + pcoffset));
  let s := with_regs s r in
  do v <~ reg_get (regs s) dest_reg;
  Ok (updatePSR_CC v s).

Definition jsr (s : LC3) : res LC3 :=
  let pcoffset := int16 (PCOFFSET11 (ir s)) in
  do r <~ reg_set (regs s) 7 (pc s);
  let s := with_regs s r in
  Ok (with_pc s (int16 (pc s + pcoffset))).

Definition ret (s : LC3) : res LC3 :=
  do v <~ reg_get (regs s) 7;
  Ok (with_pc s v).

Definition trap (s : LC3) : res LC3 :=
  let vect := int16 (TRPVECT8 (ir s)) in
  do r <~ reg_set (regs s) 7 (pc s);
  let s := with_regs s r in
  do v <~ mem_get (memory s) vect;
  Ok (with_pc s v).

(** ** loadFile (lines 205-247)

    A file is its sequence of bytes.  The host is little-endian, so after
    the two bytes of a word are swapped the first byte of the file is the
    high one.  [(size_in_bytes - 2) / 2] words are read: a trailing odd
    byte is left in the file. *)

Definition byte_val (b : byte) : Z := Z.of_N (Byte.to_N b).

Definition swapped (first second : byte) : Z :=
  int16 (256 * byte_val first + byte_val second).

Fixpoint load_words (m : gmap Z Z) (a : Z) (bs : list byte) : res (gmap Z Z) :=
  match bs with
  | first :: second :: rest =>
      do m' <~ mem_set m a (swapped first second);
      load_words m' (a + 1) rest
  | _ => Ok m
  end.

Definition loadFile (file : list byte) (s : LC3) : res (Z * LC3) :=
  match file with
  | first :: second :: rest =>
      let load_start_addr := swapped first second in
      let s := with_pc s load_start_addr in
      do m <~ load_words (memory s) load_start_addr rest;
      Ok (load_start_addr, with_memory s m)
  | _ => Fault ShortFile
  end.

(** ** main (lines 106-203)

    What the process does to the outside is a list of events, oldest
    first.  [PRINT_ON] is 0, so the guarded [printf]s and the [getchar]
    of line 199 are never run and are left out. *)

Inductive event :=
| Printf_c (c : Z)                        (* printf("%c", c), line 129 *)
| Printf_usage                            (* the message of line 118 *)
| Fprintf_stderr (opcode pc : Z)          (* the message of line 186 *)
| Getchar.                                (* getchar(), line 187 *)

Inductive outcome :=
| Running (out : list event) (s : LC3)    (* the loop goes on from s *)
| Exited (code : Z) (out : list event) (s : LC3)   (* main returned code *)
| Undefined (f : fault) (out : list event).        (* access outside an array *)

Definition emit (pre : list event) (o : outcome) : outcome :=
  match o with
  | Running out s => Running (pre ++ out) s
  | Exited code out s => Exited code (pre ++ out) s
  | Undefined f out => Undefined f (pre ++ out)
  end.

Definition continue (r : res LC3) : outcome :=
  match r with
  | Ok s => Running [] s
  | Fault f => Undefined f []
  end.

(** Lines 128-131: the pending character is written before the fetch. *)
Definition drain (s : LC3) : list event * LC3 :=
  if status (display s) =? DISPLAY_SET then
    ([Printf_c (Z.land 255 (data (display s)))],
     with_display s {| status := int16 DISPLAY_READY; data := data (display s) |})
  else ([], s).

(** Lines 135-190: the switch, its cases in the order of the source. *)
Definition execute (s : LC3) : outcome :=
  let opcode := int16 (OPCODE (ir s)) in
  if opcode =? ADD_OP then
    continue (if negb (IMMBIT (ir s) =? 0) then addImm s else addRegs s)
  else if opcode =? AND_OP then
    continue (if negb (IMMBIT (ir s) =? 0) then andImm s else andRegs s)
  else if opcode =? LD_OP then continue (ld s)
  else if opcode =? LDI_OP then continue (ldi s)
  else if opcode =? LDR_OP then continue (ldr s)
  else if opcode =? BR_OP then continue (br s)
  else if opcode =? ST_OP then continue (st s)
  else if opcode =? STI_OP then continue (sti s)
  else if opcode =? STR_OP then continue (str s)
  else if opcode =? LEA_OP then continue (lea s)
  else if opcode =? JSR_OP then continue (jsr s)
  else if opcode =? RET_OP then continue (ret s)
  else if opcode =? TRAP_OP then continue (trap s)
  else Exited 1 [Fprintf_stderr opcode (pc s); Getchar] s.

(** Lines 132-133: the fetch reads [memory[pc]] and increments [pc]. *)
Definition fetch (s : LC3) : res LC3 :=
  do w <~ mem_get (memory s) (pc s);
  let s := with_ir s w in
  Ok (with_pc s (int16 (pc s + 1))).

(** One pass through the body of the while loop. *)
Definition cycle (s : LC3) : outcome :=
  let '(out, s1) := drain s in
  match fetch s1 with
  | Fault f => Undefined f out
  | Ok s2 => emit out (execute s2)
  end.

(** The while loop, for at most [fuel] passes; [Running] is returned
    when the passes are used up and the power bit is still set. *)
Fixpoint main_loop (fuel : nat) (s : LC3) : outcome :=
  if MCR_POWER (mcr s) =? 0 then Exited 0 [] s
  else
    match fuel with
    | O => Running [] s
    | S fuel' =>
        match cycle s with
        | Running out s' => emit out (main_loop fuel' s')
        | o => o
        end
    end.

(** The for loop of lines 112-116. *)
Fixpoint load_files (argv : list (list byte)) (s : LC3) : res LC3 :=
  match argv with
  | [] => Ok s
  | fName :: rest =>
      do r <~ loadFile fName s;
      load_files rest (snd r)
  end.

(** Lines 110-123 when there are arguments: the files are loaded in
    order, then [init] runs. *)
Definition boot (argv : list (list byte)) : res LC3 :=
  do s <~ load_files argv globals;
  Ok (init s).

(** [argv] holds the contents of the files named by argv[1], argv[2], ... *)
Definition main (fuel : nat) (argv : list (list byte)) : outcome :=
  match argv with
  | [] => Exited 1 [Printf_usage] globals
  | _ =>
      match boot argv with
      | Fault f => Undefined f []
      | Ok s => main_loop fuel s
      end
  end.

Definition out_of (o : outcome) : list event :=
  match o with
  | Running out _ | Exited _ out _ | Undefined _ out => out
  end.

Definition state_of (o : outcome) : option LC3 :=
  match o with
  | Running _ s | Exited _ _ s => Some s
  | Undefined _ _ => None
  end.

Definition code_of (o : outcome) : option Z :=
  match o with
  | Exited code _ _ => Some code
  | _ => None
  end.

(** ** Vocabulary of the specification

    The definitions below are not functions of LC3.c.  They name what the
    specification talks about, so that the handlers can be compared with
    it. *)

(** The value of the low [k] bits of [w] read as a two's-complement number. *)
Definition sext (k : Z) (w : Z) : Z := (w + 2 ^ (k - 1)) mod 2 ^ k - 2 ^ (k - 1).

(** The low [k] bits of [w] read as an unsigned number. *)
Definition zext (k : Z) (w : Z) : Z := w mod 2 ^ k.

(** Section 4.2: the MMIO router. *)
Definition router_read (s : LC3) (addr : Z) : res Z :=
  if addr =? DSR then Ok (status (display s))
  else if addr =? DDR then Ok (data (display s))
  else if addr =? MCR_ADRESS then Ok (mcr s)
  else mem_get (memory s) addr.

Definition router_write (s : LC3) (addr value : Z) : res LC3 :=
  if addr =? DSR then Ok (with_display s {| status := value; data := data (display s) |})
  else if addr =? DDR then Ok (with_display s {| status := 0; data := value |})
  else if addr =? MCR_ADRESS then Ok (with_mcr s value)
  else do m <~ mem_set (memory s) addr value; Ok (with_memory s m).

(** Section 4.3: the condition codes of a signed value. *)
Definition set_cc (v : Z) (c : PSR) : PSR :=
  {| junk := junk c;
     psr_p := if 0 <? v then 1 else 0;
     psr_n := if v <? 0 then 1 else 0;
     psr_z := if v =? 0 then 1 else 0 |}.

Definition cc_exclusive (c : PSR) : Prop :=
  (psr_n c = 1 /\ psr_z c = 0 /\ psr_p c = 0) \/
  (psr_n c = 0 /\ psr_z c = 1 /\ psr_p c = 0) \/
  (psr_n c = 0 /\ psr_z c = 0 /\ psr_p c = 1).

(** The opcodes whose case in the switch ends in [updatePSR_CC]. *)
Definition sets_cc (opcode : Z) : bool :=
  (opcode =? ADD_OP) || (opcode =? AND_OP) || (opcode =? LD_OP) ||
  (opcode =? LDI_OP) || (opcode =? LDR_OP) || (opcode =? LEA_OP).

(** DR <- x; set_cc(DR): the tail shared by the loads and LEA. *)
Definition load_dr (s : LC3) (x : Z) : res LC3 :=
  let dest_reg := int16 (REG1 (ir s)) in
  do r <~ reg_set (regs s) dest_reg x;
  let s := with_regs s r in
  do v <~ reg_get (regs s) dest_reg;
  Ok (updatePSR_CC v s).

(** The address of a PC-relative operand of the instruction fetched from
    address [a]: the incremented PC plus the offset, as an [int16_t]. *)
Definition pc_relative (a off : Z) : Z := int16 (int16 (a + 1) + off).

(** BR is taken when a flag selected by the instruction is set. *)
Definition br_taken (s : LC3) : bool :=
  negb (Z.lor (Z.lor (Z.land (psr_n (psr s)) (BRN (ir s)))
                     (Z.land (psr_z (psr s)) (BRZ (ir s))))
              (Z.land (psr_p (psr s)) (BRP (ir s))) =? 0).

Definition ok {A : Type} (r : res A) : option A :=
  match r with
  | Ok a => Some a
  | Fault _ => None
  end.

(** The store that the instruction in [ir] performs from the state [s]
    reached by the fetch: the address it is routed to and the value. *)
Definition store_of (s : LC3) : option (Z * Z) :=
  let opcode := int16 (OPCODE (ir s)) in
  let target : option Z :=
    if opcode =? ST_OP then Some (int16 (pc s + sext 9 (ir s)))
    else if opcode =? STI_OP then ok (router_read s (int16 (pc s + sext 9 (ir s))))
    else if opcode =? STR_OP then
      ok (do b <~ reg_get (regs s) (REG2 (ir s)); Ok (int16 (b + sext 6 (ir s))))
    else None in
  match target, ok (reg_get (regs s) (REG1 (ir s))) with
  | Some a, Some v => Some (a, v)
  | _, _ => None
  end.

(** The character that this store leaves pending on the display. *)
Definition requests (s : LC3) : option Z :=
  match store_of s with
  | Some (a, v) =>
      if a =? DDR then Some (Z.land 255 v)
      else if (a =? DSR) && (v =? 0) then Some (Z.land 255 (data (display s)))
      else None
  | None => None
  end.

(** The states from which the first [fuel] passes of the loop execute
    their instruction, i.e. the states reached by their fetches. *)
Fixpoint history (fuel : nat) (s : LC3) : list LC3 :=
  if MCR_POWER (mcr s) =? 0 then []
  else
    match fuel with
    | O => []
    | S fuel' =>
        match fetch (snd (drain s)) with
        | Fault _ => []
        | Ok s2 =>
            s2 :: match execute s2 with
                  | Running _ s' => history fuel' s'
                  | _ => []
                  end
        end
    end.

(** The character that the next pass will print, if there is one: the
    loop condition holds and the display status is [DISPLAY_SET]. *)
Definition pending (s : LC3) : list Z :=
  if negb (MCR_POWER (mcr s) =? 0) && (status (display s) =? DISPLAY_SET)
  then [Z.land 255 (data (display s))]
  else [].

(** The characters written to standard output by the loop. *)
Definition printed (out : list event) : list Z :=
  omap (fun e => match e with Printf_c c => Some c | _ => None end) out.

(** A result that kept the register file whole and, when it failed, failed
    on a subscript of [memory]. *)
Definition regs_safe (r : res LC3) : Prop :=
  match r with
  | Ok s' => length (regs s') = 8%nat
  | Fault f => exists i, f = MemOutOfBounds i
  end.

(** The effect of one executed instruction on everything but the
    registers and the program counter. *)
Definition effect (s s' : LC3) : Prop :=
  ir s' = ir s /\
  (if sets_cc (OPCODE (ir s))
   then exists v, reg_get (regs s') (REG1 (ir s)) = Ok v /\ psr s' = set_cc v (psr s)
   else psr s' = psr s) /\
  match store_of s with
  | Some (a, v) => router_write s a v = Ok s'
  | None => display s' = display s /\ mcr s' = mcr s /\ memory s' = memory s
  end.

Definition handlers : list (LC3 -> res LC3) :=
  [addImm; addRegs; andImm; andRegs; not_; br; ld; ldi; ldr; st; sti; str;
   lea; jsr; ret; trap].

(** ** Object files used below *)

Import Byte.

(** x3000: LD R0,#4; LD R1,#4; STR R0,R1,#0; LD R2,#3; STR R3,R2,#0;
    .FILL x0041; .FILL xFE06; .FILL xFFFE.  Prints A and halts. *)
Definition print_A : list byte :=
  [x30; x00; x20; x04; x22; x04; x70; x40; x24; x03; x76; x80;
   x00; x41; xfe; x06; xff; xfe].

(** x3000: LD R1,#1; STR R0,R1,#0; .FILL xFE04.  Stores 0 to DSR. *)
Definition clear_DSR : list byte :=
  [x30; x00; x22; x01; x70; x40; xfe; x04].

(** x3000: LD R1,#1; LDR R0,R1,#0; .FILL x8000.  Loads from x8000. *)
Definition load_x8000 : list byte :=
  [x30; x00; x22; x01; x60; x40; x80; x00].

(** x3000: TRAP x80. *)
Definition trap_x80 : list byte := [x30; x00; xf0; x80].

(** x3000: the word x8000, opcode 8. *)
Definition opcode_8 : list byte := [x30; x00; x80; x00].

(** The state a successful result holds. *)
Definition the_state (r : res LC3) : LC3 :=
  match r with
  | Ok s => s
  | Fault _ => globals
  end.

(** The state in which the loop is entered when [file] is the only argument. *)
Definition start (file : list byte) : LC3 := the_state (boot [file]).

(** The state in which the pass that begins in [s] executes its instruction. *)
Definition fetched (s : LC3) : LC3 := the_state (fetch (snd (drain s))).

(** The state after [n] passes from [s]. *)
Definition after (n : nat) (s : LC3) : LC3 :=
  match state_of (main_loop n s) with
  | Some s' => s'
  | None => s
  end.

(** ** printState and printMemory (lines 262-275)

    Both are called by main only when [PRINT_ON] is set, which it is
    not; they are embedded on their own.  A line they print is recorded
    with the values given to its conversions: [%04hX] and [%04X] get a
    value already masked with [0xffff], [%d] a register as it is. *)

Inductive line :=
| Reg_line (i hex dec : Z)       (* "Reg[%d]\t0x%04hX\t#%d\n" *)
| PC_line (hex : Z)              (* "PC\t0x%04hX\n" *)
| PSR_line (hex : Z)             (* "PSR\t0x%04hX\n" *)
| IR_line (hex : Z)              (* "IR\t0x%04hX\n" *)
| CC_line (c : byte)             (* "CC\t%c\n" *)
| Memory_Contents                (* "Memory Contents:\n" *)
| Cell_line (addr hex : Z).      (* "%04hX\t0x%04X\n" *)

(** The for loop of printState: [count] registers from [regs[i]] on. *)
Fixpoint printState_regs (count : nat) (i : Z) (s : LC3) : res (list line) :=
  match count with
  | O => Ok []
  | S count' =>
      do v <~ reg_get (regs s) i;
      do rest <~ printState_regs count' (i + 1) s;
      Ok (Reg_line i (Z.land v 65535) v :: rest)
  end.

(** The letters N, Z, P and the space are the bytes x4e, x5a, x50, x20. *)
Definition printState (s : LC3) : res (list line) :=
  do rs <~ printState_regs (Z.to_nat REG_COUNT) 0 s;
  Ok (rs ++
      [PC_line (Z.land (pc s) 65535);
       PSR_line (Z.land (Z.shiftl (junk (psr s)) 3 + Z.shiftl (psr_n (psr s)) 2 +
                         Z.shiftl (psr_z (psr s)) 1 + psr_p (psr s)) 65535);
       IR_line (Z.land (ir s) 65535);
       CC_line (if negb (psr_n (psr s) =? 0) then x4e
                else if negb (psr_z (psr s) =? 0) then x5a
                else if negb (psr_p (psr s) =? 0) then x50
                else x20)]).

(** The for loop of printMemory, for at most [fuel] cells; [None] when
    the cells are not exhausted by then.  [++from] is on an [int16_t]. *)
Fixpoint printMemory_loop (fuel : nat) (m : gmap Z Z) (from to : Z)
  : option (res (list line)) :=
  if from <? to then
    match fuel with
    | O => None
    | S fuel' =>
        match mem_get m from with
        | Fault f => Some (Fault f)
        | Ok v =>
            match printMemory_loop fuel' m (int16 (from + 1)) to with
            | Some (Ok rest) =>
                Some (Ok (Cell_line (Z.land from 65535) (Z.land v 65535) :: rest))
            | other => other
            end
        end
    end
  else Some (Ok []).

(** The arguments are converted to the [int16_t] parameters. *)
Definition printMemory (s : LC3) (from to : Z) : option (res (list line)) :=
  match printMemory_loop (Z.to_nat 65536) (memory s) (int16 from) (int16 to) with
  | Some (Ok cells) => Some (Ok (Memory_Contents :: cells))
  | other => other
  end.

(** ** Vocabulary of the further properties *)

(** The words of the body of an object file: each pair of bytes, high
    byte first; a last byte without a partner is no word. *)
Fixpoint words_of (bs : list byte) : list Z :=
  match bs with
  | first :: second :: rest => swapped first second :: words_of rest
  | _ => []
  end.

(** [memory] with the words [ws] in the cells [a], [a + 1], ... *)
Fixpoint place (m : gmap Z Z) (a : Z) (ws : list Z) : gmap Z Z :=
  match ws with
  | [] => m
  | w :: ws' => place (<[a := w]> m) (a + 1) ws'
  end.

(** The opcodes of ST, STI and STR. *)
Definition is_store (opcode : Z) : bool :=
  (opcode =? ST_OP) || (opcode =? STI_OP) || (opcode =? STR_OP).

(** The opcodes of BR, JSR, RET and TRAP. *)
Definition is_jump (opcode : Z) : bool :=
  (opcode =? BR_OP) || (opcode =? JSR_OP) || (opcode =? RET_OP) || (opcode =? TRAP_OP).

(** The register an instruction may write: its DR field for the opcodes
    that set the condition codes, R7 for JSR and TRAP, none otherwise. *)
Definition written_reg (w : Z) : option Z :=
  if sets_cc (OPCODE w) then Some (REG1 w)
  else if (OPCODE w =? JSR_OP) || (OPCODE w =? TRAP_OP) then Some 7
  else None.

(** The state after DR <- d; set_cc(DR). *)
Definition write_dr (s : LC3) (d : Z) : LC3 :=
  with_psr (with_regs s (<[Z.to_nat (REG1 (ir s)) := d]> (regs s)))
    (set_cc d (psr s)).

(** The second operand of ADD and AND: the sign-extended imm5 when bit 5
    of the instruction is set, the value [c] of SR2 otherwise. *)
Definition operand2 (s : LC3) (c : Z) : Z :=
  if IMMBIT (ir s) =? 0 then c else sext 5 (ir s).

(** The values of an [int16_t]. *)
Definition in16 (v : Z) : Prop := -32768 <= v < 32768.

(** Every [int16_t] object of the machine holds a value of its type. *)
Definition ranged (s : LC3) : Prop :=
  in16 (mcr s) /\
  map_Forall (fun _ v => in16 v) (memory s) /\
  Forall in16 (regs s) /\
  in16 (pc s) /\ in16 (ir s) /\
  in16 (status (display s)) /\ in16 (data (display s)).

(** * Properties *)

(** ** Integers and the decoder *)

Lemma int16_range (v : Z) : -32768 <= int16 v < 32768.
Proof. unfold int16. pose proof (Z.mod_pos_bound (v + 32768) 65536). lia. Qed.

Lemma int16_small (v : Z) : -32768 <= v < 32768 -> int16 v = v.
Proof.
  intros Hv. unfold int16.
  rewrite Z.mod_small by lia. lia.
Qed.

Lemma int16_idem (v : Z) : int16 (int16 v) = int16 v.
Proof. apply int16_small, int16_range. Qed.

Lemma u16_int16 (v : Z) : u16 (int16 v) = v mod 65536.
Proof.
  unfold u16, int16.
  Z.div_mod_to_equations. lia.
Qed.

Lemma land7_range (v : Z) : 0 <= Z.land v 7 < 8.
Proof.
  change 7 with (Z.ones 3). rewrite Z.land_ones by lia.
  apply Z.mod_pos_bound. lia.
Qed.

Lemma land1_range (v : Z) : 0 <= Z.land v 1 < 2.
Proof.
  replace (Z.land v 1) with (Z.land v (Z.ones 1)) by reflexivity.
  rewrite Z.land_ones by lia. apply Z.mod_pos_bound. lia.
Qed.

Lemma land15_range (v : Z) : 0 <= Z.land v 15 < 16.
Proof.
  change 15 with (Z.ones 4). rewrite Z.land_ones by lia.
  apply Z.mod_pos_bound. lia.
Qed.

(** [(w << j) >> j] on a 32-bit int keeps the low [32 - j] bits, signed. *)
Lemma shl_shr_sext (j k w : Z) :
  0 < j -> 0 < k -> k = 32 - j -> Z.shiftr (int32 (Z.shiftl w j)) j = sext k w.
Proof.
  intros Hj Hk ->. rewrite Z.shiftl_mul_pow2, Z.shiftr_div_pow2 by lia.
  unfold int32, sext.
  assert (H32 : 4294967296 = 2 ^ j * 2 ^ (32 - j)).
  { rewrite <- Z.pow_add_r by lia. replace (j + (32 - j)) with 32 by lia. reflexivity. }
  assert (H31 : 2147483648 = 2 ^ j * 2 ^ (32 - j - 1)).
  { rewrite <- Z.pow_add_r by lia. replace (j + (32 - j - 1)) with 31 by lia. reflexivity. }
  assert (Hp : 0 < 2 ^ j) by (apply Z.pow_pos_nonneg; lia).
  assert (Hq : 0 < 2 ^ (32 - j)) by (apply Z.pow_pos_nonneg; lia).
  rewrite H32. rewrite H31 at 1.
  replace (w * 2 ^ j + 2 ^ j * 2 ^ (32 - j - 1))
    with (2 ^ j * (w + 2 ^ (32 - j - 1))) by ring.
  rewrite Z.mul_mod_distr_l by lia.
  rewrite H31.
  replace (2 ^ j * ((w + 2 ^ (32 - j - 1)) mod 2 ^ (32 - j)) - 2 ^ j * 2 ^ (32 - j - 1))
    with (((w + 2 ^ (32 - j - 1)) mod 2 ^ (32 - j) - 2 ^ (32 - j - 1)) * 2 ^ j) by ring.
  apply Z.div_mul. lia.
Qed.

Lemma IMMVAL_sext (w : Z) : IMMVAL w = sext 5 w.
Proof. unfold IMMVAL. apply shl_shr_sext; lia. Qed.

Lemma PCOFFSET11_sext (w : Z) : PCOFFSET11 w = sext 11 w.
Proof. unfold PCOFFSET11. apply shl_shr_sext; lia. Qed.

Lemma PCOFFSET9_sext (w : Z) : PCOFFSET9 w = sext 9 w.
Proof. unfold PCOFFSET9. apply shl_shr_sext; lia. Qed.

Lemma PCOFFSET6_sext (w : Z) : PCOFFSET6 w = sext 6 w.
Proof. unfold PCOFFSET6. apply shl_shr_sext; lia. Qed.

Lemma TRPVECT8_sext (w : Z) : TRPVECT8 w = sext 8 w.
Proof. unfold TRPVECT8. apply shl_shr_sext; lia. Qed.

Lemma sext_range (k w : Z) : 0 < k -> - 2 ^ (k - 1) <= sext k w < 2 ^ (k - 1).
Proof.
  intros Hk. unfold sext.
  assert (H2 : 2 ^ k = 2 * 2 ^ (k - 1)).
  { rewrite <- Z.pow_succ_r by lia. f_equal. lia. }
  assert (Hp : 0 < 2 ^ (k - 1)) by (apply Z.pow_pos_nonneg; lia).
  pose proof (Z.mod_pos_bound (w + 2 ^ (k - 1)) (2 ^ k)). lia.
Qed.

Lemma int16_REG1 (w : Z) : int16 (REG1 w) = REG1 w.
Proof. apply int16_small. pose proof (land7_range (Z.shiftr w 9)). unfold REG1. lia. Qed.

Lemma int16_REG2 (w : Z) : int16 (REG2 w) = REG2 w.
Proof. apply int16_small. pose proof (land7_range (Z.shiftr w 6)). unfold REG2. lia. Qed.

Lemma int16_REG3 (w : Z) : int16 (REG3 w) = REG3 w.
Proof. apply int16_small. pose proof (land7_range w). unfold REG3. lia. Qed.

Lemma int16_OPCODE (w : Z) : int16 (OPCODE w) = OPCODE w.
Proof. apply int16_small. pose proof (land15_range (Z.shiftr w 12)). unfold OPCODE. lia. Qed.

Lemma int16_BRN (w : Z) : int16 (BRN w) = BRN w.
Proof. apply int16_small. pose proof (land1_range (Z.shiftr w 11)). unfold BRN. lia. Qed.

Lemma int16_BRZ (w : Z) : int16 (BRZ w) = BRZ w.
Proof. apply int16_small. pose proof (land1_range (Z.shiftr w 10)). unfold BRZ. lia. Qed.

Lemma int16_BRP (w : Z) : int16 (BRP w) = BRP w.
Proof. apply int16_small. pose proof (land1_range (Z.shiftr w 9)). unfold BRP. lia. Qed.

Lemma int16_sext (k w : Z) : 0 < k <= 16 -> int16 (sext k w) = sext k w.
Proof.
  intros Hk. apply int16_small.
  pose proof (sext_range k w ltac:(lia)) as Hr.
  assert (2 ^ (k - 1) <= 2 ^ 15) by (apply Z.pow_le_mono_r; lia).
  change (2 ^ 15) with 32768 in *. lia.
Qed.

Lemma int16_IMMVAL (w : Z) : int16 (IMMVAL w) = sext 5 w.
Proof. rewrite IMMVAL_sext. apply int16_sext. lia. Qed.

Lemma int16_PCOFFSET11 (w : Z) : int16 (PCOFFSET11 w) = sext 11 w.
Proof. rewrite PCOFFSET11_sext. apply int16_sext. lia. Qed.

Lemma int16_PCOFFSET9 (w : Z) : int16 (PCOFFSET9 w) = sext 9 w.
Proof. rewrite PCOFFSET9_sext. apply int16_sext. lia. Qed.

Lemma int16_PCOFFSET6 (w : Z) : int16 (PCOFFSET6 w) = sext 6 w.
Proof. rewrite PCOFFSET6_sext. apply int16_sext. lia. Qed.

Lemma int16_TRPVECT8 (w : Z) : int16 (TRPVECT8 w) = sext 8 w.
Proof. rewrite TRPVECT8_sext. apply int16_sext. lia. Qed.

Create Rewrite HintDb decode.
#[local] Hint Rewrite int16_REG1 int16_REG2 int16_REG3 int16_OPCODE
  int16_BRN int16_BRZ int16_BRP int16_IMMVAL int16_PCOFFSET11
  int16_PCOFFSET9 int16_PCOFFSET6 int16_TRPVECT8 : decode.

(** ** The handlers against the router of the specification *)

Ltac by_decoding h :=
  unfold h, load_dr, router_read, router_write;
  autorewrite with decode; reflexivity.

Lemma ld_router (s : LC3) :
  ld s = (do x <~ router_read s (int16 (pc s + sext 9 (ir s))); load_dr s x).
Proof. by_decoding ld. Qed.

Lemma ldi_router (s : LC3) :
  ldi s = (do ptr <~ router_read s (int16 (pc s + sext 9 (ir s)));
           do x <~ router_read s ptr;
           load_dr s x).
Proof. by_decoding ldi. Qed.

Lemma ldr_router (s : LC3) :
  ldr s = (do b <~ reg_get (regs s) (REG2 (ir s));
           do x <~ router_read s (int16 (b + sext 6 (ir s)));
           load_dr s x).
Proof. by_decoding ldr. Qed.

Lemma st_router (s : LC3) :
  st s = (do x <~ reg_get (regs s) (REG1 (ir s));
          router_write s (int16 (pc s + sext 9 (ir s))) x).
Proof. by_decoding st. Qed.

Lemma sti_router (s : LC3) :
  sti s = (do ptr <~ router_read s (int16 (pc s + sext 9 (ir s)));
           do x <~ reg_get (regs s) (REG1 (ir s));
           router_write s ptr x).
Proof. by_decoding sti. Qed.

Lemma str_router (s : LC3) :
  str s = (do b <~ reg_get (regs s) (REG2 (ir s));
           do x <~ reg_get (regs s) (REG1 (ir s));
           router_write s (int16 (b + sext 6 (ir s))) x).
Proof. by_decoding str. Qed.

Lemma lea_load_dr (s : LC3) :
  lea s = load_dr s (int16 (pc s + sext 9 (ir s))).
Proof. by_decoding lea. Qed.

Lemma br_taken_or_not (s : LC3) :
  br s = Ok (if br_taken s then with_pc s (int16 (pc s + sext 9 (ir s))) else s).
Proof.
  unfold br, br_taken. autorewrite with decode.
  destruct (negb _); reflexivity.
Qed.

Lemma jsr_link (s : LC3) :
  jsr s = (do r <~ reg_set (regs s) 7 (pc s);
           Ok (with_pc (with_regs s r) (int16 (pc s + sext 11 (ir s))))).
Proof. by_decoding jsr. Qed.

Lemma trap_vector (s : LC3) :
  trap s = (do r <~ reg_set (regs s) 7 (pc s);
            do v <~ mem_get (memory s) (sext 8 (ir s));
            Ok (with_pc (with_regs s r) v)).
Proof. by_decoding trap. Qed.

(** ** The register file *)

Lemma REG1_range (w : Z) : 0 <= REG1 w < 8.
Proof. apply land7_range. Qed.

Lemma REG2_range (w : Z) : 0 <= REG2 w < 8.
Proof. apply land7_range. Qed.

Lemma REG3_range (w : Z) : 0 <= REG3 w < 8.
Proof. apply land7_range. Qed.

Lemma reg_get_in_bounds (r : list Z) (i : Z) :
  length r = 8%nat -> 0 <= i < 8 -> exists v, reg_get r i = Ok v.
Proof.
  intros Hlen Hi. unfold reg_get.
  destruct (0 <=? i) eqn:H0; [|lia].
  destruct (r !! Z.to_nat i) as [v|] eqn:E; [eauto|].
  apply lookup_ge_None in E. lia.
Qed.

Lemma reg_set_in_bounds (r : list Z) (i v : Z) :
  length r = 8%nat -> 0 <= i < 8 -> reg_set r i v = Ok (<[Z.to_nat i := v]> r).
Proof.
  intros Hlen Hi. unfold reg_set. rewrite Hlen.
  replace (0 <=? i) with true by (symmetry; apply Z.leb_le; lia).
  replace (i <? Z.of_nat 8) with true by (symmetry; apply Z.ltb_lt; lia).
  reflexivity.
Qed.

Lemma reg_set_length (r r' : list Z) (i v : Z) :
  reg_set r i v = Ok r' -> length r' = length r.
Proof.
  unfold reg_set. destruct (_ && _); [|discriminate].
  intros [= <-]. apply length_insert.
Qed.

Lemma regs_updatePSR_CC (v : Z) (s : LC3) : regs (updatePSR_CC v s) = regs s.
Proof. unfold updatePSR_CC. destruct (v <? 0), (v =? 0), (0 <? v); reflexivity. Qed.

Lemma router_read_fault (s : LC3) (a : Z) (f : fault) :
  router_read s a = Fault f -> f = MemOutOfBounds a.
Proof.
  unfold router_read, mem_get.
  destruct (a =? DSR), (a =? DDR), (a =? MCR_ADRESS), (in_memory a); congruence.
Qed.

Lemma router_write_safe (s : LC3) (a v : Z) :
  length (regs s) = 8%nat -> regs_safe (router_write s a v).
Proof.
  intros Hlen. unfold router_write, mem_set.
  destruct (a =? DSR), (a =? DDR), (a =? MCR_ADRESS), (in_memory a);
    simpl; eauto.
Qed.

Lemma load_dr_safe (s : LC3) (x : Z) :
  length (regs s) = 8%nat -> regs_safe (load_dr s x).
Proof.
  intros Hlen. unfold load_dr. rewrite int16_REG1.
  rewrite reg_set_in_bounds by (auto using REG1_range). simpl.
  destruct (reg_get_in_bounds (<[Z.to_nat (REG1 (ir s)) := x]> (regs s)) (REG1 (ir s)))
    as [v Hv]; [by rewrite length_insert | apply REG1_range |].
  rewrite Hv. simpl. rewrite regs_updatePSR_CC. simpl. by rewrite length_insert.
Qed.

Lemma alu_safe (s : LC3) (x : Z) (r : list Z) :
  length (regs s) = 8%nat ->
  reg_set (regs s) (REG1 (ir s)) x = Ok r ->
  regs_safe (do v <~ reg_get r (REG1 (ir s)); Ok (updatePSR_CC v (with_regs s r))).
Proof.
  intros Hlen Hr. apply reg_set_length in Hr as Hlen'.
  destruct (reg_get_in_bounds r (REG1 (ir s))) as [v Hv];
    [congruence | apply REG1_range |].
  rewrite Hv. simpl. rewrite regs_updatePSR_CC. simpl. congruence.
Qed.

Ltac read_reg R :=
  match goal with
  | Hlen : length (regs ?s) = 8%nat |- context [reg_get (regs ?s) (R (ir ?s))] =>
      let v := fresh "v" in
      let Hv := fresh "Hv" in
      destruct (reg_get_in_bounds (regs s) (R (ir s)) Hlen (land7_range _)) as [v Hv];
      rewrite Hv; simpl bind
  end.

Lemma handlers_safe (h : LC3 -> res LC3) (s : LC3) :
  In h handlers -> length (regs s) = 8%nat -> regs_safe (h s).
Proof.
  intros Hin Hlen. unfold handlers in Hin. simpl in Hin.
  repeat (destruct Hin as [<- | Hin]); try contradiction.
  - unfold addImm. autorewrite with decode. read_reg REG2.
    rewrite reg_set_in_bounds by (auto using REG1_range). simpl bind.
    eapply alu_safe; [done | by apply reg_set_in_bounds, REG1_range].
  - unfold addRegs. autorewrite with decode. read_reg REG2. read_reg REG3.
    rewrite reg_set_in_bounds by (auto using REG1_range). simpl bind.
    eapply alu_safe; [done | by apply reg_set_in_bounds, REG1_range].
  - unfold andImm. autorewrite with decode. read_reg REG2.
    rewrite reg_set_in_bounds by (auto using REG1_range). simpl bind.
    eapply alu_safe; [done | by apply reg_set_in_bounds, REG1_range].
  - unfold andRegs. autorewrite with decode. read_reg REG2. read_reg REG3.
    rewrite reg_set_in_bounds by (auto using REG1_range). simpl bind.
    eapply alu_safe; [done | by apply reg_set_in_bounds, REG1_range].
  - unfold not_. autorewrite with decode. read_reg REG2.
    rewrite reg_set_in_bounds by (auto using REG1_range). simpl bind.
    eapply alu_safe; [done | by apply reg_set_in_bounds, REG1_range].
  - rewrite br_taken_or_not. destruct (br_taken s); exact Hlen.
  - rewrite ld_router.
    destruct (router_read s _) as [x|f] eqn:E; simpl bind;
      [by apply load_dr_safe | apply router_read_fault in E; simpl; eauto].
  - rewrite ldi_router.
    destruct (router_read s _) as [ptr|f] eqn:E; simpl bind;
      [|apply router_read_fault in E; simpl; eauto].
    destruct (router_read s ptr) as [x|f] eqn:E'; simpl bind;
      [by apply load_dr_safe | apply router_read_fault in E'; simpl; eauto].
  - rewrite ldr_router. read_reg REG2.
    destruct (router_read s _) as [x|f] eqn:E; simpl bind;
      [by apply load_dr_safe | apply router_read_fault in E; simpl; eauto].
  - rewrite st_router. read_reg REG1. by apply router_write_safe.
  - rewrite sti_router.
    destruct (router_read s _) as [ptr|f] eqn:E; simpl bind;
      [|apply router_read_fault in E; simpl; eauto].
    read_reg REG1. by apply router_write_safe.
  - rewrite str_router. read_reg REG2. read_reg REG1. by apply router_write_safe.
  - rewrite lea_load_dr. by apply load_dr_safe.
  - rewrite jsr_link. rewrite reg_set_in_bounds by (auto; lia). simpl.
    by rewrite length_insert.
  - unfold ret. destruct (reg_get_in_bounds (regs s) 7 Hlen ltac:(lia)) as [v Hv].
    rewrite Hv. exact Hlen.
  - rewrite trap_vector. rewrite reg_set_in_bounds by (auto; lia). simpl bind.
    unfold mem_get. destruct (in_memory _); simpl; [by rewrite length_insert | eauto].
Qed.

(** ** The arithmetic handlers and the condition codes *)

Lemma addImm_alu (s : LC3) :
  addImm s = (do a <~ reg_get (regs s) (REG2 (ir s));
              load_dr s (int16 (a + sext 5 (ir s)))).
Proof. by_decoding addImm. Qed.

Lemma addRegs_alu (s : LC3) :
  addRegs s = (do a <~ reg_get (regs s) (REG2 (ir s));
               do b <~ reg_get (regs s) (REG3 (ir s));
               load_dr s (int16 (a + b))).
Proof. by_decoding addRegs. Qed.

Lemma andImm_alu (s : LC3) :
  andImm s = (do a <~ reg_get (regs s) (REG2 (ir s));
              load_dr s (int16 (Z.land a (sext 5 (ir s))))).
Proof. by_decoding andImm. Qed.

Lemma andRegs_alu (s : LC3) :
  andRegs s = (do a <~ reg_get (regs s) (REG2 (ir s));
               do b <~ reg_get (regs s) (REG3 (ir s));
               load_dr s (int16 (Z.land a b))).
Proof. by_decoding andRegs. Qed.

Lemma not_alu (s : LC3) :
  not_ s = (do a <~ reg_get (regs s) (REG2 (ir s));
            load_dr s (int16 (Z.lnot a))).
Proof. by_decoding not_. Qed.

Lemma updatePSR_CC_set_cc (v : Z) (s : LC3) :
  updatePSR_CC v s = with_psr s (set_cc v (psr s)).
Proof.
  unfold updatePSR_CC, set_cc.
  destruct (v <? 0) eqn:Hn, (v =? 0) eqn:Hz, (0 <? v) eqn:Hp;
    try reflexivity; exfalso;
    rewrite ?Z.ltb_lt, ?Z.ltb_ge, ?Z.eqb_eq, ?Z.eqb_neq in *; lia.
Qed.

Lemma set_cc_exclusive (v : Z) (c : PSR) : cc_exclusive (set_cc v c).
Proof.
  unfold cc_exclusive, set_cc. simpl.
  destruct (v <? 0) eqn:Hn, (v =? 0) eqn:Hz, (0 <? v) eqn:Hp; auto;
    exfalso; rewrite ?Z.ltb_lt, ?Z.ltb_ge, ?Z.eqb_eq, ?Z.eqb_neq in *; lia.
Qed.

(** What [load_dr] leaves behind: the new register file, and the flags of
    the value read back from the destination register. *)
Lemma load_dr_Ok (s s' : LC3) (x : Z) :
  load_dr s x = Ok s' ->
  exists r v, reg_set (regs s) (REG1 (ir s)) x = Ok r /\
              reg_get r (REG1 (ir s)) = Ok v /\
              s' = with_psr (with_regs s r) (set_cc v (psr s)).
Proof.
  unfold load_dr. rewrite int16_REG1.
  destruct (reg_set _ _ _) as [r|] eqn:Hr; [simpl|discriminate].
  destruct (reg_get r _) as [v|] eqn:Hv; [simpl|discriminate].
  rewrite updatePSR_CC_set_cc. intros [= <-]. eauto.
Qed.

Lemma router_write_Ok (s s' : LC3) (a v : Z) :
  router_write s a v = Ok s' ->
  psr s' = psr s /\ regs s' = regs s /\ pc s' = pc s /\ ir s' = ir s.
Proof.
  unfold router_write, mem_set.
  destruct (a =? DSR), (a =? DDR), (a =? MCR_ADRESS), (in_memory a);
    simpl; intros [= <-]; auto.
Qed.

Ltac bind_Ok H :=
  match type of H with
  | bind ?e _ = Ok _ =>
      let E := fresh "E" in destruct e eqn:E; simpl in H; [|discriminate H]
  end.

Lemma continue_Running (r : res LC3) (out : list event) (s' : LC3) :
  continue r = Running out s' -> out = [] /\ r = Ok s'.
Proof. destruct r; simpl; intros [= <- <-] || intros [=]; auto. Qed.

Lemma OPCODE_cases (w : Z) :
  OPCODE w = 0 \/ OPCODE w = 1 \/ OPCODE w = 2 \/ OPCODE w = 3 \/
  OPCODE w = 4 \/ OPCODE w = 5 \/ OPCODE w = 6 \/ OPCODE w = 7 \/
  OPCODE w = 8 \/ OPCODE w = 9 \/ OPCODE w = 10 \/ OPCODE w = 11 \/
  OPCODE w = 12 \/ OPCODE w = 13 \/ OPCODE w = 14 \/ OPCODE w = 15.
Proof. pose proof (land15_range (Z.shiftr w 12)). unfold OPCODE. lia. Qed.

Ltac loaded H :=
  apply load_dr_Ok in H; destruct H as (r & v & _ & Hv & ->);
  simpl; repeat split; eauto.

Ltac stored H :=
  repeat split; try (apply router_write_Ok in H; tauto); try exact H.

Lemma execute_Running (s s' : LC3) (out : list event) :
  execute s = Running out s' -> out = [] /\ effect s s'.
Proof.
  intros H. unfold execute in H. unfold effect, store_of.
  rewrite int16_OPCODE in *.
  destruct (OPCODE_cases (ir s)) as
    [Hop|[Hop|[Hop|[Hop|[Hop|[Hop|[Hop|[Hop|[Hop|[Hop|[Hop|[Hop|[Hop|[Hop|[Hop|Hop]]]]]]]]]]]]]]];
    rewrite Hop in *; simpl in H; try discriminate H;
    apply continue_Running in H; destruct H as [-> H]; (split; [reflexivity|]);
    simpl.
  - (* BR *)
    rewrite br_taken_or_not in H. injection H as <-.
    destruct (br_taken s); simpl; auto.
  - (* ADD *)
    destruct (negb _).
    + rewrite addImm_alu in H. bind_Ok H. loaded H.
    + rewrite addRegs_alu in H. bind_Ok H. bind_Ok H. loaded H.
  - (* LD *)
    rewrite ld_router in H. bind_Ok H. loaded H.
  - (* ST *)
    rewrite st_router in H. bind_Ok H. simpl. stored H.
  - (* JSR *)
    rewrite jsr_link in H. bind_Ok H. injection H as <-. simpl; auto.
  - (* AND *)
    destruct (negb _).
    + rewrite andImm_alu in H. bind_Ok H. loaded H.
    + rewrite andRegs_alu in H. bind_Ok H. bind_Ok H. loaded H.
  - (* LDR *)
    rewrite ldr_router in H. bind_Ok H. bind_Ok H. loaded H.
  - (* STR *)
    rewrite str_router in H. bind_Ok H. bind_Ok H. simpl. stored H.
  - (* LDI *)
    rewrite ldi_router in H. bind_Ok H. bind_Ok H. loaded H.
  - (* STI *)
    rewrite sti_router in H. bind_Ok H. bind_Ok H. simpl. stored H.
  - (* RET *)
    unfold ret in H. bind_Ok H. injection H as <-. simpl; auto.
  - (* LEA *)
    rewrite lea_load_dr in H. loaded H.
  - (* TRAP *)
    rewrite trap_vector in H. bind_Ok H. bind_Ok H. injection H as <-. simpl; auto.
Qed.

Lemma execute_unsupported (s : LC3) :
  OPCODE (ir s) = 8 \/ OPCODE (ir s) = 9 \/ OPCODE (ir s) = 13 ->
  execute s = Exited 1 [Fprintf_stderr (OPCODE (ir s)) (pc s); Getchar] s.
Proof.
  intros Hop. unfold execute. rewrite int16_OPCODE.
  destruct Hop as [-> | [-> | ->]]; reflexivity.
Qed.

Lemma execute_Exited (s s' : LC3) (code : Z) (out : list event) :
  execute s = Exited code out s' ->
  (OPCODE (ir s) = 8 \/ OPCODE (ir s) = 9 \/ OPCODE (ir s) = 13) /\
  code = 1 /\ out = [Fprintf_stderr (OPCODE (ir s)) (pc s); Getchar] /\ s' = s.
Proof.
  intros H. unfold execute in H. rewrite int16_OPCODE in H.
  unfold continue in H.
  destruct (OPCODE_cases (ir s)) as
    [Hop|[Hop|[Hop|[Hop|[Hop|[Hop|[Hop|[Hop|[Hop|[Hop|[Hop|[Hop|[Hop|[Hop|[Hop|Hop]]]]]]]]]]]]]]];
    rewrite Hop in *; simpl in H;
    repeat match type of H with
           | match ?r with _ => _ end = _ => destruct r
           end;
    try discriminate H; injection H as <- <- <-; auto.
Qed.

Lemma execute_Undefined (s : LC3) (f : fault) (out : list event) :
  execute s = Undefined f out -> out = [].
Proof.
  intros H. unfold execute in H. unfold continue in H.
  repeat match type of H with
         | (if ?c then _ else _) = _ => destruct c
         | match ?r with _ => _ end = _ => destruct r
         end;
    try discriminate H; injection H as _ <-; reflexivity.
Qed.

(** ** TRAP *)

Lemma sext8_zext8 (w : Z) :
  sext 8 w = if zext 8 w <? 128 then zext 8 w else zext 8 w - 256.
Proof.
  unfold sext, zext. change (2 ^ (8 - 1)) with 128. change (2 ^ 8) with 256.
  destruct (w mod 256 <? 128) eqn:Hlt;
    [apply Z.ltb_lt in Hlt | apply Z.ltb_ge in Hlt];
    Z.div_mod_to_equations; lia.
Qed.

(** Vectors x00..x7F: R7 <- PC; PC <- memory[trapvect8]. *)
Lemma trap_low_vector (s : LC3) :
  zext 8 (ir s) < 128 ->
  trap s = (do r <~ reg_set (regs s) 7 (pc s);
            do v <~ mem_get (memory s) (zext 8 (ir s));
            Ok (with_pc (with_regs s r) v)).
Proof.
  intros Hlow. rewrite trap_vector, sext8_zext8.
  apply Z.ltb_lt in Hlow. rewrite Hlow. reflexivity.
Qed.

(** Vectors x80..xFF: the subscript is negative. *)
Lemma trap_high_vector (s : LC3) :
  length (regs s) = 8%nat -> 128 <= zext 8 (ir s) ->
  trap s = Fault (MemOutOfBounds (zext 8 (ir s) - 256)).
Proof.
  intros Hlen Hhigh. rewrite trap_vector, sext8_zext8.
  rewrite reg_set_in_bounds by (auto; lia). simpl bind.
  assert (Hz : zext 8 (ir s) < 256) by (apply Z.mod_pos_bound; reflexivity).
  apply Z.ltb_ge in Hhigh as Hb. rewrite Hb.
  unfold mem_get, in_memory.
  replace (0 <=? zext 8 (ir s) - 256) with false by (symmetry; apply Z.leb_gt; lia).
  reflexivity.
Qed.

(** C1 (defect of the code).  TRAP x80, the word xF080: [TRPVECT8] yields
    -128 where the zero-extended vector is 128, and the handler reads
    [memory[-128]], outside the array, instead of [memory[128]]. *)
Theorem trap_x80_reads_outside_memory :
  TRPVECT8 (int16 61568) = -128 /\
  zext 8 (int16 61568) = 128 /\
  main 1 [trap_x80] = Undefined (MemOutOfBounds (-128)) [].
Proof. repeat split; vm_compute; reflexivity. Qed.

(** ** Addresses with bit 15 set *)

Lemma router_negative_address (s : LC3) (a v : Z) :
  a < 0 -> a <> DSR -> a <> DDR -> a <> MCR_ADRESS ->
  router_read s a = Fault (MemOutOfBounds a) /\
  router_write s a v = Fault (MemOutOfBounds a).
Proof.
  intros Ha H1 H2 H3. unfold router_read, router_write, mem_get, mem_set, in_memory.
  apply Z.eqb_neq in H1, H2, H3. rewrite H1, H2, H3.
  replace (0 <=? a) with false by (symmetry; apply Z.leb_gt; lia).
  split; reflexivity.
Qed.

Lemma router_positive_address (s : LC3) (a v : Z) :
  0 <= a < 32768 ->
  router_read s a = Ok (default 0 (memory s !! a)) /\
  router_write s a v = Ok (with_memory s (<[a := v]> (memory s))).
Proof.
  intros Ha. unfold router_read, router_write, mem_get, mem_set, in_memory.
  assert (H1 : (a =? DSR) = false) by (apply Z.eqb_neq; vm_compute; lia).
  assert (H2 : (a =? DDR) = false) by (apply Z.eqb_neq; vm_compute; lia).
  assert (H3 : (a =? MCR_ADRESS) = false) by (apply Z.eqb_neq; vm_compute; lia).
  rewrite H1, H2, H3.
  replace (0 <=? a) with true by (symmetry; apply Z.leb_le; lia).
  replace (a <? 65536) with true by (symmetry; apply Z.ltb_lt; lia).
  split; reflexivity.
Qed.

(** C2 (defect of the code).  The address x8000 is the [int16_t] -32768:
    LDR from it reads [memory[-32768]], outside the 65536 cells, and so
    does a store to it. *)
Theorem load_x8000_reads_outside_memory :
  int16 32768 = -32768 /\
  main 2 [load_x8000] = Undefined (MemOutOfBounds (-32768)) [] /\
  router_read globals (int16 32768) = Fault (MemOutOfBounds (-32768)) /\
  router_write globals (int16 32768) 0 = Fault (MemOutOfBounds (-32768)).
Proof. repeat split; vm_compute; reflexivity. Qed.

(** ** LDI and STI *)

(** C3.  LDI and STI resolve both of their addresses through the router:
    the pointer is read at PC + sext(PCoffset9) by [router_read], and the
    final access is [router_read], resp. [router_write], at the pointer.
    The router maps DSR, DDR and MCR to [display.status], [display.data]
    and [mcr], and any other address to [memory]. *)
Theorem LDI_STI_route_both_accesses (s : LC3) :
  ldi s = (do ptr <~ router_read s (int16 (pc s + sext 9 (ir s)));
           do x <~ router_read s ptr;
           load_dr s x) /\
  sti s = (do ptr <~ router_read s (int16 (pc s + sext 9 (ir s)));
           do x <~ reg_get (regs s) (REG1 (ir s));
           router_write s ptr x) /\
  router_read s DSR = Ok (status (display s)) /\
  router_read s DDR = Ok (data (display s)) /\
  router_read s MCR_ADRESS = Ok (mcr s) /\
  (forall v,
     router_write s DSR v = Ok (with_display s {| status := v; data := data (display s) |}) /\
     router_write s DDR v = Ok (with_display s {| status := 0; data := v |}) /\
     router_write s MCR_ADRESS v = Ok (with_mcr s v)) /\
  (forall a v, a <> DSR -> a <> DDR -> a <> MCR_ADRESS ->
     router_read s a = mem_get (memory s) a /\
     router_write s a v = (do m <~ mem_set (memory s) a v; Ok (with_memory s m))).
Proof.
  split; [apply ldi_router|]. split; [apply sti_router|].
  repeat split; try reflexivity;
    unfold router_read, router_write;
    match goal with
    | H1 : _ <> DSR, H2 : _ <> DDR, H3 : _ <> MCR_ADRESS |- _ =>
        apply Z.eqb_neq in H1, H2, H3; rewrite H1, H2, H3; reflexivity
    end.
Qed.

(** ** Register subscripts *)

(** C10.  The register fields of any instruction word lie in 0..7, and no
    handler run on an 8-entry register file fails on a register
    subscript; it leaves 8 registers behind. *)
Theorem register_accesses_in_bounds (w : Z) (h : LC3 -> res LC3) (s : LC3) :
  In h handlers -> length (regs s) = 8%nat ->
  (0 <= REG1 w < REG_COUNT /\ 0 <= REG2 w < REG_COUNT /\ 0 <= REG3 w < REG_COUNT) /\
  (forall i, h s <> Fault (RegOutOfBounds i)) /\
  (forall s', h s = Ok s' -> length (regs s') = 8%nat).
Proof.
  intros Hin Hlen. split.
  - unfold REG_COUNT. auto using REG1_range, REG2_range, REG3_range.
  - pose proof (handlers_safe h s Hin Hlen) as Hsafe. unfold regs_safe in Hsafe.
    destruct (h s) as [s1|f].
    + split; [discriminate | intros s' [= <-]; exact Hsafe].
    + destruct Hsafe as [j ->]. split; [discriminate | discriminate].
Qed.

Lemma register_accesses_in_bounds_witness :
  (0 <= REG1 8708 < REG_COUNT /\ 0 <= REG2 8708 < REG_COUNT /\
   0 <= REG3 8708 < REG_COUNT) /\
  (forall i, ldr (start print_A) <> Fault (RegOutOfBounds i)) /\
  (forall s', ldr (start print_A) = Ok s' -> length (regs s') = 8%nat).
Proof.
  apply (register_accesses_in_bounds 8708 ldr (start print_A)).
  - do 8 right. left. reflexivity.
  - vm_compute. reflexivity.
Defined.

(** ** The fetch and the fatal branch *)

Lemma fetch_Ok (s s2 : LC3) :
  fetch s = Ok s2 ->
  in_memory (pc s) = true /\
  s2 = with_pc (with_ir s (default 0 (memory s !! pc s))) (int16 (pc s + 1)).
Proof.
  unfold fetch, mem_get. destruct (in_memory (pc s)); [|discriminate].
  simpl. intros [= <-]. auto.
Qed.

(** C8.  When the word fetched has opcode 8, 13 or 9, the pass prints the
    pending character if there is one, then the opcode and the
    incremented PC on stderr, and main returns 1: no handler runs, and
    however many passes are allowed no further one is made. *)
Theorem unsupported_opcode_is_fatal (s s2 : LC3) (fuel : nat) :
  MCR_POWER (mcr s) <> 0 ->
  fetch (snd (drain s)) = Ok s2 ->
  OPCODE (ir s2) = 8 \/ OPCODE (ir s2) = 13 \/ OPCODE (ir s2) = 9 ->
  main_loop (S fuel) s =
    Exited 1 (fst (drain s) ++ [Fprintf_stderr (OPCODE (ir s2)) (pc s2); Getchar]) s2.
Proof.
  intros Hpower Hfetch Hop. simpl.
  apply Z.eqb_neq in Hpower. rewrite Hpower.
  unfold cycle. destruct (drain s) as [out s1]. simpl in *. rewrite Hfetch.
  rewrite execute_unsupported by tauto. reflexivity.
Qed.

Lemma unsupported_opcode_is_fatal_witness :
  code_of (main_loop 1 (start opcode_8)) = Some 1 /\
  out_of (main_loop 1 (start opcode_8)) = [Fprintf_stderr 8 12289; Getchar].
Proof.
  rewrite (unsupported_opcode_is_fatal (start opcode_8) (fetched (start opcode_8)) 0).
  - split; vm_compute; reflexivity.
  - vm_compute. discriminate.
  - vm_compute. reflexivity.
  - left. vm_compute. reflexivity.
Defined.

(** ** PC-relative addressing *)

Lemma u16_pc_relative (a off : Z) :
  u16 (pc_relative a off) = (u16 a + 1 + off) mod 65536.
Proof.
  unfold pc_relative. rewrite u16_int16. unfold int16, u16.
  Z.div_mod_to_equations. lia.
Qed.

Lemma execute_opcode (s : LC3) (op : Z) :
  OPCODE (ir s) = op ->
  execute s =
    if op =? ADD_OP then
      continue (if negb (IMMBIT (ir s) =? 0) then addImm s else addRegs s)
    else if op =? AND_OP then
      continue (if negb (IMMBIT (ir s) =? 0) then andImm s else andRegs s)
    else if op =? LD_OP then continue (ld s)
    else if op =? LDI_OP then continue (ldi s)
    else if op =? LDR_OP then continue (ldr s)
    else if op =? BR_OP then continue (br s)
    else if op =? ST_OP then continue (st s)
    else if op =? STI_OP then continue (sti s)
    else if op =? STR_OP then continue (str s)
    else if op =? LEA_OP then continue (lea s)
    else if op =? JSR_OP then continue (jsr s)
    else if op =? RET_OP then continue (ret s)
    else if op =? TRAP_OP then continue (trap s)
    else Exited 1 [Fprintf_stderr op (pc s); Getchar] s.
Proof. intros <-. unfold execute. rewrite int16_OPCODE. reflexivity. Qed.

(** C7.  After the fetch of the instruction at address [pc s] the PC is
    that address plus one, modulo 2^16, and BR, LD, LDI, ST, STI, LEA and
    JSR compute their target from it: the target is
    [pc_relative (pc s) off], the address (pc s + 1 + off) mod 2^16, with
    [off] the sign-extended offset field. *)
Theorem pc_relative_base_is_incremented_pc (s s2 : LC3) :
  fetch s = Ok s2 ->
  pc s2 = int16 (pc s + 1) /\
  u16 (pc s2) = (u16 (pc s) + 1) mod 65536 /\
  (forall off, u16 (pc_relative (pc s) off) = (u16 (pc s) + 1 + off) mod 65536) /\
  (OPCODE (ir s2) = BR_OP ->
   execute s2 =
     continue (Ok (if br_taken s2
                   then with_pc s2 (pc_relative (pc s) (sext 9 (ir s2)))
                   else s2))) /\
  (OPCODE (ir s2) = LD_OP ->
   execute s2 =
     continue (do x <~ router_read s2 (pc_relative (pc s) (sext 9 (ir s2)));
               load_dr s2 x)) /\
  (OPCODE (ir s2) = LDI_OP ->
   execute s2 =
     continue (do ptr <~ router_read s2 (pc_relative (pc s) (sext 9 (ir s2)));
               do x <~ router_read s2 ptr;
               load_dr s2 x)) /\
  (OPCODE (ir s2) = ST_OP ->
   execute s2 =
     continue (do x <~ reg_get (regs s2) (REG1 (ir s2));
               router_write s2 (pc_relative (pc s) (sext 9 (ir s2))) x)) /\
  (OPCODE (ir s2) = STI_OP ->
   execute s2 =
     continue (do ptr <~ router_read s2 (pc_relative (pc s) (sext 9 (ir s2)));
               do x <~ reg_get (regs s2) (REG1 (ir s2));
               router_write s2 ptr x)) /\
  (OPCODE (ir s2) = LEA_OP ->
   execute s2 = continue (load_dr s2 (pc_relative (pc s) (sext 9 (ir s2))))) /\
  (OPCODE (ir s2) = JSR_OP ->
   execute s2 =
     continue (do r <~ reg_set (regs s2) 7 (int16 (pc s + 1));
               Ok (with_pc (with_regs s2 r) (pc_relative (pc s) (sext 11 (ir s2)))))).
Proof.
  intros Hfetch. apply fetch_Ok in Hfetch as [_ Hs2].
  assert (Hpc : pc s2 = int16 (pc s + 1)) by (rewrite Hs2; reflexivity).
  split; [exact Hpc|].
  split; [rewrite Hpc, u16_int16; unfold u16; Z.div_mod_to_equations; lia|].
  split; [intros off; apply u16_pc_relative|].
  unfold pc_relative. rewrite <- Hpc.
  repeat split; intros Hop; rewrite (execute_opcode s2 _ Hop); simpl.
  - by rewrite br_taken_or_not.
  - by rewrite ld_router.
  - by rewrite ldi_router.
  - by rewrite st_router.
  - by rewrite sti_router.
  - by rewrite lea_load_dr.
  - by rewrite jsr_link.
Qed.

(** LD R0,#4 fetched from x3000 reads x3005. *)
Lemma pc_relative_base_is_incremented_pc_witness :
  pc_relative 12288 (sext 9 8196) = 12293 /\
  execute (fetched (start print_A)) =
    continue (do x <~ router_read (fetched (start print_A))
                        (pc_relative (pc (start print_A))
                           (sext 9 (ir (fetched (start print_A)))));
              load_dr (fetched (start print_A)) x).
Proof.
  split; [reflexivity|].
  assert (Hfetch : fetch (start print_A) = Ok (fetched (start print_A)))
    by (vm_compute; reflexivity).
  destruct (pc_relative_base_is_incremented_pc _ _ Hfetch)
    as (_ & _ & _ & _ & Hld & _).
  apply Hld. vm_compute. reflexivity.
Defined.

(** ** Stores and the halt *)

Lemma MCR_POWER_testbit (v : Z) : MCR_POWER v = Z.b2z (Z.testbit v 15).
Proof.
  unfold MCR_POWER. rewrite Z.shiftr_land.
  change (Z.shiftr 32768 15) with (Z.ones 1).
  rewrite Z.land_ones by lia. rewrite <- Z.bit0_mod.
  rewrite Z.shiftr_spec by lia. reflexivity.
Qed.

Lemma execute_store (s : LC3) (a v : Z) :
  store_of s = Some (a, v) -> execute s = continue (router_write s a v).
Proof.
  unfold store_of. intros H. rewrite int16_OPCODE in H.
  rewrite (execute_opcode s _ eq_refl).
  destruct (OPCODE_cases (ir s)) as
    [Hop|[Hop|[Hop|[Hop|[Hop|[Hop|[Hop|[Hop|[Hop|[Hop|[Hop|[Hop|[Hop|[Hop|[Hop|Hop]]]]]]]]]]]]]]];
    rewrite Hop in *; simpl in H; try discriminate H; simpl.
  - (* ST *)
    rewrite st_router.
    destruct (reg_get (regs s) (REG1 (ir s))); simpl in H; [|discriminate H].
    injection H as <- <-. reflexivity.
  - (* STR *)
    rewrite str_router.
    destruct (reg_get (regs s) (REG2 (ir s))); simpl in H; [|discriminate H].
    destruct (reg_get (regs s) (REG1 (ir s))); simpl in H; [|discriminate H].
    injection H as <- <-. reflexivity.
  - (* STI *)
    rewrite sti_router.
    destruct (router_read s _); simpl in H; [|discriminate H].
    destruct (reg_get (regs s) (REG1 (ir s))); simpl in H; [|discriminate H].
    injection H as <- <-. reflexivity.
Qed.

(** C5.  When the instruction of a pass is a store (ST, STI or STR) routed
    to the MCR whose value has bit 15 clear, the pass ends with that value
    in [mcr] and main returns 0 at the next test of the loop condition:
    nothing more is printed, and [pc] and [ir] are those of this pass, so
    no further instruction is fetched however many passes are allowed. *)
Theorem MCR_store_halts (s s2 : LC3) (v : Z) (fuel : nat) :
  MCR_POWER (mcr s) <> 0 ->
  fetch (snd (drain s)) = Ok s2 ->
  store_of s2 = Some (MCR_ADRESS, v) ->
  Z.testbit v 15 = false ->
  main_loop (S fuel) s = Exited 0 (fst (drain s)) (with_mcr s2 v).
Proof.
  intros Hpower Hfetch Hstore Hbit.
  cbn [main_loop]. apply Z.eqb_neq in Hpower. rewrite Hpower.
  unfold cycle. destruct (drain s) as [out s1]. cbn [fst snd] in *.
  rewrite Hfetch, (execute_store _ _ _ Hstore).
  change (router_write s2 MCR_ADRESS v) with (Ok (with_mcr s2 v)).
  cbn [continue emit]. rewrite app_nil_r.
  assert (Hoff : (MCR_POWER (mcr (with_mcr s2 v)) =? 0) = true).
  { cbn [mcr with_mcr]. rewrite MCR_POWER_testbit, Hbit. reflexivity. }
  destruct fuel; cbn [main_loop]; rewrite Hoff; cbn [emit]; by rewrite app_nil_r.
Qed.

(** The fifth pass of [print_A] is STR R3,R2,#0 with R2 = xFFFE, R3 = 0. *)
Lemma MCR_store_halts_witness :
  main_loop 1 (after 4 (start print_A)) =
    Exited 0 (fst (drain (after 4 (start print_A))))
      (with_mcr (fetched (after 4 (start print_A))) 0).
Proof.
  apply (MCR_store_halts (after 4 (start print_A))
           (fetched (after 4 (start print_A))) 0 0).
  - vm_compute. discriminate.
  - vm_compute. reflexivity.
  - vm_compute. reflexivity.
  - reflexivity.
Defined.

(** ** Passes of the loop *)

Lemma drain_frame (s : LC3) :
  mcr (snd (drain s)) = mcr s /\ psr (snd (drain s)) = psr s /\
  regs (snd (drain s)) = regs s /\ status (display (snd (drain s))) <> 0.
Proof.
  unfold drain, DISPLAY_SET. destruct (status (display s) =? 0) eqn:E; simpl.
  - repeat split. vm_compute. discriminate.
  - repeat split. by apply Z.eqb_neq.
Qed.

Lemma drain_out (s : LC3) :
  fst (drain s) =
    if status (display s) =? 0 then [Printf_c (Z.land 255 (data (display s)))] else [].
Proof. unfold drain, DISPLAY_SET. destruct (_ =? _); reflexivity. Qed.

Lemma fetch_frame (s s2 : LC3) :
  fetch s = Ok s2 ->
  mcr s2 = mcr s /\ psr s2 = psr s /\ regs s2 = regs s /\ display s2 = display s.
Proof. intros H. apply fetch_Ok in H as [_ ->]. auto. Qed.

(** The three ways a pass can end. *)
Lemma cycle_cases (s : LC3) :
  (exists f, fetch (snd (drain s)) = Fault f /\ cycle s = Undefined f (fst (drain s))) \/
  (exists s2, fetch (snd (drain s)) = Ok s2 /\
     ((exists s', execute s2 = Running [] s' /\ cycle s = Running (fst (drain s)) s') \/
      (execute s2 = Exited 1 [Fprintf_stderr (OPCODE (ir s2)) (pc s2); Getchar] s2 /\
       (OPCODE (ir s2) = 8 \/ OPCODE (ir s2) = 9 \/ OPCODE (ir s2) = 13) /\
       cycle s = Exited 1 (fst (drain s) ++
                           [Fprintf_stderr (OPCODE (ir s2)) (pc s2); Getchar]) s2) \/
      (exists f, execute s2 = Undefined f [] /\ cycle s = Undefined f (fst (drain s))))).
Proof.
  unfold cycle. destruct (drain s) as [out s1]. cbn [fst snd].
  destruct (fetch s1) as [s2|f]; [right | left; eauto].
  exists s2. split; [reflexivity|].
  destruct (execute s2) as [out' s'|code out' s'|f out'] eqn:E.
  - left. apply execute_Running in E as E'. destruct E' as [-> _].
    exists s'. cbn [emit]. by rewrite app_nil_r.
  - right; left. apply execute_Exited in E as (Hop & -> & -> & ->). auto.
  - right; right. apply execute_Undefined in E as ->.
    exists f. cbn [emit]. by rewrite app_nil_r.
Qed.

Lemma state_of_emit (pre : list event) (o : outcome) :
  state_of (emit pre o) = state_of o.
Proof. destruct o; reflexivity. Qed.

Lemma out_of_emit (pre : list event) (o : outcome) :
  out_of (emit pre o) = pre ++ out_of o.
Proof. destruct o; reflexivity. Qed.

(** A property of the state that every pass keeps holds whenever the loop
    stops or is interrupted. *)
Lemma main_loop_invariant (P : LC3 -> Prop) :
  (forall s s2 s', P s -> fetch (snd (drain s)) = Ok s2 ->
                   execute s2 = Running [] s' -> P s') ->
  (forall s s2, P s -> fetch (snd (drain s)) = Ok s2 -> P s2) ->
  forall fuel s s', P s -> state_of (main_loop fuel s) = Some s' -> P s'.
Proof.
  intros Hrun Hfetch. induction fuel as [|fuel IH]; intros s s' HP; cbn [main_loop].
  - destruct (_ =? 0); cbn; intros [= <-]; exact HP.
  - destruct (_ =? 0); [cbn; intros [= <-]; exact HP|].
    destruct (cycle_cases s) as [(f & _ & ->) | (s2 & Hf & Hc)]; [discriminate|].
    destruct Hc as [(s1 & He & ->) | [(_ & _ & ->) | (f & _ & ->)]].
    + rewrite state_of_emit. apply IH. eauto.
    + cbn. intros [= <-]. eauto.
    + discriminate.
Qed.

(** ** Loading and init *)

Lemma loadFile_frame (file : list byte) (s s' : LC3) (a : Z) :
  loadFile file s = Ok (a, s') ->
  mcr s' = mcr s /\ psr s' = psr s /\ regs s' = regs s /\ display s' = display s.
Proof.
  unfold loadFile. destruct file as [|first [|second rest]]; try discriminate.
  destruct (load_words _ _ _); simpl; [|discriminate].
  intros [= _ <-]. auto.
Qed.

Lemma load_files_frame (argv : list (list byte)) (s s' : LC3) :
  load_files argv s = Ok s' ->
  mcr s' = mcr s /\ psr s' = psr s /\ regs s' = regs s /\ display s' = display s.
Proof.
  revert s. induction argv as [|file argv IH]; intros s; simpl.
  - intros [= <-]. auto.
  - destruct (loadFile file s) as [[a s1]|] eqn:E; simpl; [|discriminate].
    intros H. apply IH in H. apply loadFile_frame in E.
    destruct H as (-> & -> & -> & ->). exact E.
Qed.

Lemma boot_Ok (argv : list (list byte)) (s0 : LC3) :
  boot argv = Ok s0 ->
  mcr s0 = -32768 /\
  psr s0 = {| junk := 0; psr_p := 0; psr_n := 0; psr_z := 1 |} /\
  regs s0 = replicate 8 0 /\
  display s0 = {| status := -32768; data := 0 |}.
Proof.
  unfold boot. destruct (load_files argv globals) as [s|] eqn:E; simpl; [|discriminate].
  intros [= <-]. apply load_files_frame in E as (Hm & Hp & Hr & Hd).
  unfold init. simpl. rewrite Hp, Hr. auto.
Qed.

(** ** The condition codes *)

Lemma execute_cc (s s' : LC3) (out : list event) :
  execute s = Running out s' ->
  if sets_cc (OPCODE (ir s))
  then exists v, reg_get (regs s') (REG1 (ir s)) = Ok v /\ psr s' = set_cc v (psr s)
  else psr s' = psr s.
Proof. intros H. apply execute_Running in H as (_ & _ & Hcc & _). exact Hcc. Qed.

Lemma execute_cc_exclusive (s s' : LC3) (out : list event) :
  cc_exclusive (psr s) -> execute s = Running out s' -> cc_exclusive (psr s').
Proof.
  intros Hex H. apply execute_cc in H.
  destruct (sets_cc _).
  - destruct H as (v & _ & ->). apply set_cc_exclusive.
  - by rewrite H.
Qed.

(** C6.  [init] leaves Z = 1 and N = P = 0; in every state in which the
    loop stops or is interrupted, that is after every executed
    instruction, exactly one of N, Z, P is 1; and an instruction whose
    opcode is one of ADD, AND, LD, LDI, LDR, LEA sets the three flags
    together from the sign of the value in its destination register,
    while every other instruction leaves them as they were. *)
Theorem cc_exactly_one_flag (argv : list (list byte)) (s0 : LC3) :
  boot argv = Ok s0 ->
  (psr_z (psr s0) = 1 /\ psr_n (psr s0) = 0 /\ psr_p (psr s0) = 0) /\
  (forall fuel s, state_of (main_loop fuel s0) = Some s -> cc_exclusive (psr s)) /\
  (forall s s' out,
     execute s = Running out s' ->
     if sets_cc (OPCODE (ir s))
     then exists v, reg_get (regs s') (REG1 (ir s)) = Ok v /\
                    psr s' = set_cc v (psr s)
     else psr s' = psr s).
Proof.
  intros Hboot. apply boot_Ok in Hboot as (_ & Hpsr & _ & _).
  split; [by rewrite Hpsr|]. split; [|apply execute_cc].
  intros fuel s.
  apply (main_loop_invariant (fun s => cc_exclusive (psr s))).
  - intros s1 s2 s' Hex Hf He.
    apply fetch_frame in Hf as (_ & Hp & _ & _).
    destruct (drain_frame s1) as (_ & Hp' & _ & _).
    apply (execute_cc_exclusive s2 s' []); [by rewrite Hp, Hp' | exact He].
  - intros s1 s2 Hex Hf.
    apply fetch_frame in Hf as (_ & Hp & _ & _).
    destruct (drain_frame s1) as (_ & Hp' & _ & _). by rewrite Hp, Hp'.
  - rewrite Hpsr. right; left. auto.
Qed.

(** After LD R0,#4 of [print_A], which loads x0041, P is the flag set. *)
Lemma cc_exactly_one_flag_witness :
  cc_exclusive (psr (after 1 (start print_A))) /\
  psr (after 1 (start print_A)) = {| junk := 0; psr_p := 1; psr_n := 0; psr_z := 0 |}.
Proof.
  assert (Hboot : boot [print_A] = Ok (start print_A)) by (vm_compute; reflexivity).
  destruct (cc_exactly_one_flag _ _ Hboot) as (_ & Hinv & _).
  split; [|vm_compute; reflexivity].
  apply (Hinv 1%nat). vm_compute. reflexivity.
Defined.

(** ** Standard input *)

Lemma drain_no_Getchar (s : LC3) : ~ In Getchar (fst (drain s)).
Proof.
  rewrite drain_out. destruct (_ =? 0); simpl; [intros [H|[]]; discriminate H | tauto].
Qed.

Lemma main_loop_Getchar (fuel : nat) (s : LC3) :
  In Getchar (out_of (main_loop fuel s)) ->
  exists out s2,
    main_loop fuel s =
      Exited 1 (out ++ [Fprintf_stderr (OPCODE (ir s2)) (pc s2); Getchar]) s2 /\
    ~ In Getchar out /\
    (OPCODE (ir s2) = 8 \/ OPCODE (ir s2) = 9 \/ OPCODE (ir s2) = 13).
Proof.
  revert s. induction fuel as [|fuel IH]; intros s; cbn [main_loop].
  - destruct (_ =? 0); cbn; tauto.
  - destruct (_ =? 0); [cbn; tauto|].
    pose proof (drain_no_Getchar s) as Hd.
    destruct (cycle_cases s) as [(f & _ & ->) | (s2 & Hf & Hc)]; [cbn; tauto|].
    destruct Hc as [(s1 & He & ->) | [(_ & Hop & ->) | (f & _ & ->)]].
    + rewrite out_of_emit, in_app_iff. intros [Hin|Hin]; [tauto|].
      destruct (IH s1 Hin) as (out & s3 & -> & Hout & Hop).
      exists (fst (drain s) ++ out), s3. cbn [emit]. rewrite app_assoc.
      split; [reflexivity|]. split; [|exact Hop].
      rewrite in_app_iff. tauto.
    + intros _. exists (fst (drain s)), s2. auto.
    + cbn. tauto.
Qed.

(** C9 (as amended).  main calls getchar() in one place only: on the
    path of an unrecognised opcode (8, 13 or 9), once, after the message
    on stderr and before it returns 1.  A run that read standard input
    is therefore a run that ended there, and the read is its last event. *)
Theorem stdin_read_only_before_fatal_exit (fuel : nat) (argv : list (list byte)) :
  In Getchar (out_of (main fuel argv)) ->
  exists out s,
    main fuel argv =
      Exited 1 (out ++ [Fprintf_stderr (OPCODE (ir s)) (pc s); Getchar]) s /\
    ~ In Getchar out /\
    (OPCODE (ir s) = 8 \/ OPCODE (ir s) = 9 \/ OPCODE (ir s) = 13).
Proof.
  unfold main. destruct argv as [|file argv].
  - cbn. intros [H|[]]. discriminate H.
  - destruct (boot (file :: argv)) as [s0|f]; [apply main_loop_Getchar | cbn; tauto].
Qed.

Lemma stdin_read_only_before_fatal_exit_witness :
  exists out s,
    main 1 [opcode_8] =
      Exited 1 (out ++ [Fprintf_stderr (OPCODE (ir s)) (pc s); Getchar]) s /\
    ~ In Getchar out /\
    (OPCODE (ir s) = 8 \/ OPCODE (ir s) = 9 \/ OPCODE (ir s) = 13).
Proof.
  apply (stdin_read_only_before_fatal_exit 1 [opcode_8]).
  vm_compute. right. left. reflexivity.
Defined.

(** C9 (as stated) fails: the file [opcode_8] makes main read standard
    input before it exits. *)
Lemma opcode_8_reads_stdin :
  main 1 [opcode_8] =
    Exited 1 [Fprintf_stderr 8 12289; Getchar] (fetched (start opcode_8)) /\
  In Getchar (out_of (main 1 [opcode_8])).
Proof. split; vm_compute; auto. Qed.

(** ** The display *)

Lemma printed_drain (s : LC3) :
  MCR_POWER (mcr s) <> 0 -> printed (fst (drain s)) = pending s.
Proof.
  intros Hp. apply Z.eqb_neq in Hp. unfold pending, DISPLAY_SET.
  rewrite drain_out, Hp. destruct (status (display s) =? 0); reflexivity.
Qed.

Lemma requests_executes (s : LC3) (c : Z) :
  requests s = Some c -> exists s', execute s = Running [] s'.
Proof.
  unfold requests. destruct (store_of s) as [[a v]|] eqn:Hst; [|discriminate].
  rewrite (execute_store _ _ _ Hst). unfold router_write.
  destruct (a =? DSR); [eauto|]. destruct (a =? DDR); [eauto|]. discriminate.
Qed.

(** After an instruction executed with power on and no character pending,
    a character is pending exactly when the instruction requested one. *)
Lemma pending_after (s s' : LC3) :
  MCR_POWER (mcr s) <> 0 -> status (display s) <> 0 ->
  execute s = Running [] s' ->
  pending s' = option_list (requests s).
Proof.
  intros Hp Hst He. apply execute_Running in He as (_ & _ & _ & Hstore).
  apply Z.eqb_neq in Hp, Hst. unfold pending, requests, DISPLAY_SET.
  destruct (store_of s) as [[a v]|].
  - unfold router_write in Hstore.
    destruct (a =? DSR) eqn:Ha.
    + injection Hstore as <-. cbn [mcr display with_display status data].
      rewrite Hp. apply Z.eqb_eq in Ha. subst a.
      change (DSR =? DDR) with false. change (DSR =? DSR) with true.
      destruct (v =? 0); reflexivity.
    + destruct (a =? DDR) eqn:Hb.
      * injection Hstore as <-. cbn [mcr display with_display status data].
        rewrite Hp. reflexivity.
      * cbn [andb].
        destruct (a =? MCR_ADRESS).
        -- injection Hstore as <-. cbn [mcr display with_mcr].
           rewrite Hst, andb_false_r. reflexivity.
        -- destruct (mem_set _ _ _); [|discriminate Hstore].
           injection Hstore as <-. cbn [mcr display with_memory].
           rewrite Hst, andb_false_r. reflexivity.
  - destruct Hstore as (-> & -> & _). rewrite Hst, andb_false_r. reflexivity.
Qed.

Lemma printed_app (out1 out2 : list event) :
  printed (out1 ++ out2) = printed out1 ++ printed out2.
Proof. apply omap_app. Qed.

Lemma printed_main_loop (n : nat) (s : LC3) :
  printed (out_of (main_loop n s)) =
    match n with
    | O => []
    | S m => pending s ++ omap requests (history m s)
    end.
Proof.
  revert s. induction n as [|n IH]; intros s; cbn [main_loop].
  - destruct (_ =? 0); reflexivity.
  - destruct (MCR_POWER (mcr s) =? 0) eqn:Hp.
    + unfold pending. rewrite Hp. destruct n; cbn [history]; rewrite Hp; reflexivity.
    + apply Z.eqb_neq in Hp as Hp'.
      assert (Hh0 : omap requests (history 0 s) = [])
        by (cbn [history]; by rewrite Hp).
      destruct (cycle_cases s) as [(f & Hf & ->) | (s2 & Hf & Hc)].
      { cbn [out_of]. rewrite printed_drain by done.
        destruct n; [by rewrite Hh0, app_nil_r|].
        cbn [history]. by rewrite Hp, Hf, app_nil_r. }
      assert (Hh : forall m, omap requests (history (S m) s) =
                     option_list (requests s2) ++
                     omap requests match execute s2 with
                                   | Running _ s' => history m s'
                                   | _ => []
                                   end).
      { intros m. cbn [history]. rewrite Hp, Hf. cbn [omap list_omap].
        destruct (requests s2); reflexivity. }
      destruct (fetch_frame _ _ Hf) as (Hm2 & _ & _ & Hd2).
      destruct (drain_frame s) as (Hm1 & _ & _ & Hs1).
      assert (Hnone : forall o, execute s2 = o ->
                (forall s', o <> Running [] s') -> requests s2 = None).
      { intros o Ho Hno. destruct (requests s2) as [c|] eqn:Hr; [|reflexivity].
        destruct (requests_executes _ _ Hr) as [s' Hs']. congruence. }
      destruct Hc as [(s1 & He & ->) | [(He & _ & ->) | (f & He & ->)]].
      * rewrite out_of_emit, printed_app, printed_drain, IH by done. f_equal.
        destruct n as [|m]; [by rewrite Hh0|].
        rewrite Hh, He. f_equal.
        apply pending_after; [congruence|congruence|done].
      * cbn [out_of]. rewrite printed_app, printed_drain by done.
        change (printed [Fprintf_stderr (OPCODE (ir s2)) (pc s2); Getchar]) with (@nil Z).
        f_equal.
        destruct n as [|m]; [by rewrite Hh0|].
        rewrite Hh, He, (Hnone _ He); [reflexivity | discriminate].
      * cbn [out_of]. rewrite printed_drain by done.
        rewrite <- (app_nil_r (pending s)) at 1. f_equal.
        destruct n as [|m]; [by rewrite Hh0|].
        rewrite Hh, He, (Hnone _ He); [reflexivity | discriminate].
Qed.

(** C4 (as amended).  From the state in which the loop is entered, the
    characters printed by the first n+1 passes are, in order, those
    requested by the instructions of the first n passes, one each, where
    an instruction requests a character when it is a store that leaves
    [display.status] at 0: a store routed to DDR, which requests the low
    byte of the value stored, or a store of 0 routed to DSR, which
    requests the low byte of [display.data].  The store routed to DDR
    sets [display.data] to the value and [display.status] to 0; the next
    pass prints [display.data & 0xFF] and sets the status to x8000 before
    it fetches; a pass that finds another status prints nothing. *)
Theorem display_prints_what_stores_request
    (argv : list (list byte)) (s0 : LC3) (n : nat) :
  boot argv = Ok s0 ->
  printed (out_of (main_loop (S n) s0)) = omap requests (history n s0) /\
  (forall s v,
     router_write s DDR v = Ok (with_display s {| status := 0; data := v |})) /\
  (forall s,
     status (display s) = 0 ->
     drain s = ([Printf_c (Z.land 255 (data (display s)))],
                with_display s {| status := -32768; data := data (display s) |})) /\
  (forall s, status (display s) <> 0 -> drain s = ([], s)).
Proof.
  intros Hboot. apply boot_Ok in Hboot as (Hm & _ & _ & Hd).
  split; [|split; [reflexivity|split]].
  - rewrite printed_main_loop. unfold pending. rewrite Hd. cbn [status].
    rewrite andb_false_r. reflexivity.
  - intros s Hs. unfold drain, DISPLAY_SET. rewrite Hs. reflexivity.
  - intros s Hs. unfold drain, DISPLAY_SET. apply Z.eqb_neq in Hs. by rewrite Hs.
Qed.

(** [print_A] prints A in its fourth pass, after STR R0,R1,#0 in the third. *)
Lemma display_prints_what_stores_request_witness :
  printed (out_of (main_loop 4 (start print_A))) = [65] /\
  omap requests (history 3 (start print_A)) = [65] /\
  printed (out_of (main_loop 3 (start print_A))) = [].
Proof.
  assert (Hboot : boot [print_A] = Ok (start print_A)) by (vm_compute; reflexivity).
  destruct (display_prints_what_stores_request _ _ 3 Hboot) as [H _].
  split; [rewrite H|split]; vm_compute; reflexivity.
Defined.

(** C4 (as stated) fails: [clear_DSR] stores nothing to DDR, its only
    store being that of R0 = 0 to DSR in the second pass, and the third
    pass prints a character. *)
Lemma DSR_store_prints_a_character :
  out_of (main 3 [clear_DSR]) = [Printf_c 0] /\
  map store_of (history 2 (start clear_DSR)) = [None; Some (DSR, 0)] /\
  DSR <> DDR.
Proof. repeat split; vm_compute; congruence. Qed.

(** ** Further properties of the code *)

(** X1.  TRAP with a vector in x00..x7F sets R7 to the incremented PC and
    PC to [memory[trapvect8]], the vector zero-extended, read from
    [memory] directly. *)
Theorem trap_low_vectors_read_memory (s : LC3) :
  length (regs s) = 8%nat ->
  zext 8 (ir s) < 128 ->
  trap s =
    Ok (with_pc (with_regs s (<[7%nat := pc s]> (regs s)))
          (default 0 (memory s !! zext 8 (ir s)))).
Proof.
  intros Hlen Hlow. rewrite trap_vector, sext8_zext8.
  apply Z.ltb_lt in Hlow as Hb. rewrite Hb.
  rewrite reg_set_in_bounds by (auto; lia). cbn [bind].
  unfold mem_get, in_memory.
  assert (0 <= zext 8 (ir s)) by (apply Z.mod_pos_bound; reflexivity).
  replace (0 <=? zext 8 (ir s)) with true by (symmetry; apply Z.leb_le; lia).
  replace (zext 8 (ir s) <? 65536) with true by (symmetry; apply Z.ltb_lt; lia).
  reflexivity.
Qed.

(** TRAP x25, the word xF025. *)
Lemma trap_low_vectors_read_memory_witness :
  trap (with_ir globals (int16 61477)) =
    Ok (with_pc (with_regs (with_ir globals (int16 61477))
                   (<[7%nat := 0]> (replicate 8 0)))
          (default 0 (memory globals !! 37))).
Proof.
  apply (trap_low_vectors_read_memory (with_ir globals (int16 61477))).
  - reflexivity.
  - vm_compute. reflexivity.
Defined.

(** X2.  The immediate and offset macros sign-extend: each yields the low
    5, 11, 9 or 6 bits of the word as a two's-complement number, within
    the range of that width. *)
Theorem decoder_sign_extends (w : Z) :
  (IMMVAL w = sext 5 w /\ -16 <= IMMVAL w < 16) /\
  (PCOFFSET11 w = sext 11 w /\ -1024 <= PCOFFSET11 w < 1024) /\
  (PCOFFSET9 w = sext 9 w /\ -256 <= PCOFFSET9 w < 256) /\
  (PCOFFSET6 w = sext 6 w /\ -32 <= PCOFFSET6 w < 32) /\
  (forall k, 0 < k -> sext k w mod 2 ^ k = w mod 2 ^ k).
Proof.
  rewrite IMMVAL_sext, PCOFFSET11_sext, PCOFFSET9_sext, PCOFFSET6_sext.
  pose proof (sext_range 5 w ltac:(lia)). pose proof (sext_range 11 w ltac:(lia)).
  pose proof (sext_range 9 w ltac:(lia)). pose proof (sext_range 6 w ltac:(lia)).
  repeat split; try (simpl in *; lia).
  intros k Hk. unfold sext.
  rewrite Zminus_mod_idemp_l. f_equal. lia.
Qed.

Lemma execute_handler (s : LC3) :
  (exists h, In h handlers /\ execute s = continue (h s)) \/
  execute s = Exited 1 [Fprintf_stderr (OPCODE (ir s)) (pc s); Getchar] s.
Proof.
  rewrite (execute_opcode s _ eq_refl). unfold handlers.
  destruct (OPCODE_cases (ir s)) as
    [Hop|[Hop|[Hop|[Hop|[Hop|[Hop|[Hop|[Hop|[Hop|[Hop|[Hop|[Hop|[Hop|[Hop|[Hop|Hop]]]]]]]]]]]]]]];
    rewrite Hop; cbn -[In]; try (right; reflexivity); left;
    try destruct (negb _); eexists; (split; [|reflexivity]); simpl; tauto.
Qed.

Lemma main_loop_faults (fuel : nat) (s : LC3) (f : fault) (out : list event) :
  length (regs s) = 8%nat ->
  main_loop fuel s = Undefined f out -> exists i, f = MemOutOfBounds i.
Proof.
  revert s out. induction fuel as [|fuel IH]; intros s out Hlen; cbn [main_loop].
  - destruct (_ =? 0); discriminate.
  - destruct (_ =? 0); [discriminate|].
    destruct (drain_frame s) as (_ & _ & Hr1 & _).
    destruct (cycle_cases s) as [(g & Hf & ->) | (s2 & Hf & Hc)].
    + intros [= <- _]. unfold fetch, mem_get in Hf.
      destruct (in_memory _); [discriminate|]. injection Hf as <-. eauto.
    + destruct (fetch_frame _ _ Hf) as (_ & _ & Hr2 & _).
      assert (Hlen2 : length (regs s2) = 8%nat) by congruence.
      destruct Hc as [(s1 & He & ->) | [(_ & _ & ->) | (g & He & ->)]];
        [|discriminate|].
      * destruct (execute_handler s2) as [(h & Hin & Hh)|Hx]; [|congruence].
        pose proof (handlers_safe h s2 Hin Hlen2) as Hsafe.
        rewrite Hh in He. destruct (h s2) as [s1'|]; [|discriminate He].
        injection He as <-. cbn in Hsafe.
        destruct (main_loop fuel s1') eqn:E; try discriminate.
        cbn. intros [= <- _]. eapply IH; eauto.
      * intros [= <- _].
        destruct (execute_handler s2) as [(h & Hin & Hh)|Hx]; [|congruence].
        pose proof (handlers_safe h s2 Hin Hlen2) as Hsafe.
        rewrite Hh in He. destruct (h s2); [discriminate He|].
        injection He as <-. exact Hsafe.
Qed.

Lemma load_words_fault (bs : list byte) (m : gmap Z Z) (a : Z) (f : fault) :
  load_words m a bs = Fault f -> exists i, f = MemOutOfBounds i.
Proof.
  revert m a. induction bs as [bs IH] using (induction_ltof1 _ (@length byte)).
  intros m a. destruct bs as [|c1 [|c2 rest]]; try discriminate.
  cbn [load_words]. unfold mem_set at 1. destruct (in_memory a); cbn [bind].
  - apply IH. unfold ltof. simpl. lia.
  - intros [= <-]. eauto.
Qed.

Lemma load_files_fault (argv : list (list byte)) (s : LC3) (f : fault) :
  load_files argv s = Fault f -> f = ShortFile \/ exists i, f = MemOutOfBounds i.
Proof.
  revert s. induction argv as [|file argv IH]; intros s; cbn [load_files]; [discriminate|].
  destruct (loadFile file s) as [[a s1]|g] eqn:El; cbn [bind]; [apply IH|].
  intros [= ->]. unfold loadFile in El.
  destruct file as [|b1 [|b2 rest]]; try (injection El as <-; auto).
  destruct (load_words _ _ rest) as [m|g] eqn:Ew; [discriminate|].
  injection El as ->. right. eapply load_words_fault, Ew.
Qed.

(** X3.  No run of main ends in an access outside the register file:
    whatever the object files and however long the run, [regs] is only
    subscripted within 0..7. *)
Theorem main_never_leaves_the_register_file
    (fuel : nat) (argv : list (list byte)) (i : Z) (out : list event) :
  main fuel argv <> Undefined (RegOutOfBounds i) out.
Proof.
  unfold main. destruct argv as [|file argv]; [discriminate|].
  destruct (boot (file :: argv)) as [s0|f] eqn:Hboot.
  - intros H. apply boot_Ok in Hboot as (_ & _ & Hr & _).
    apply main_loop_faults in H as [j Hj]; [discriminate Hj | by rewrite Hr].
  - intros [= -> _]. unfold boot in Hboot.
    destruct (load_files _ _) as [s|g] eqn:E; [discriminate|].
    injection Hboot as ->.
    apply load_files_fault in E as [E | [j E]]; discriminate E.
Qed.

(** X4.  BR with n = z = p = 0 never branches, and with n = z = p = 1 it
    branches whenever exactly one condition code is set. *)
Theorem br_never_and_always (s : LC3) :
  (BRN (ir s) = 0 -> BRZ (ir s) = 0 -> BRP (ir s) = 0 -> br s = Ok s) /\
  (BRN (ir s) = 1 -> BRZ (ir s) = 1 -> BRP (ir s) = 1 -> cc_exclusive (psr s) ->
   br s = Ok (with_pc s (int16 (pc s + sext 9 (ir s))))).
Proof.
  rewrite br_taken_or_not. unfold br_taken. split.
  - intros -> -> ->. rewrite !Z.land_0_r. reflexivity.
  - intros -> -> -> [(-> & -> & ->) | [(-> & -> & ->) | (-> & -> & ->)]]; reflexivity.
Qed.

(** X5.  RET after JSR returns to the instruction after the JSR: JSR leaves
    the incremented PC in R7 and RET copies R7 to the PC. *)
Theorem jsr_then_ret (s s1 : LC3) :
  jsr s = Ok s1 ->
  reg_get (regs s1) 7 = Ok (pc s) /\
  pc s1 = int16 (pc s + sext 11 (ir s)) /\
  ret s1 = Ok (with_pc s1 (pc s)).
Proof.
  rewrite jsr_link. unfold reg_set.
  destruct (_ && _) eqn:Hb; cbn [bind]; [|discriminate].
  intros [= <-]. cbn [regs pc with_pc with_regs].
  apply andb_true_iff in Hb as [_ Hlt]. apply Z.ltb_lt in Hlt.
  assert (Hget : reg_get (<[Z.to_nat 7 := pc s]> (regs s)) 7 = Ok (pc s)).
  { unfold reg_get. cbn [Z.leb Z.compare].
    rewrite list_lookup_insert_eq by lia. reflexivity. }
  split; [exact Hget|]. split; [reflexivity|].
  unfold ret. cbn [regs with_pc with_regs]. rewrite Hget. reflexivity.
Qed.

(** JSR +3 fetched from x3000: the word x4803 executed with PC = x3001. *)
Lemma jsr_then_ret_witness :
  reg_get (regs (the_state (jsr (with_pc (with_ir globals 18435) 12289)))) 7 = Ok 12289 /\
  pc (the_state (jsr (with_pc (with_ir globals 18435) 12289))) =
    int16 (12289 + sext 11 18435) /\
  ret (the_state (jsr (with_pc (with_ir globals 18435) 12289))) =
    Ok (with_pc (the_state (jsr (with_pc (with_ir globals 18435) 12289))) 12289).
Proof.
  apply (jsr_then_ret (with_pc (with_ir globals 18435) 12289)).
  vm_compute. reflexivity.
Defined.

(** ** loadFile *)

Lemma byte_pairs_ind (P : list byte -> Prop) :
  P [] -> (forall b, P [b]) ->
  (forall b1 b2 rest, P rest -> P (b1 :: b2 :: rest)) ->
  forall bs, P bs.
Proof.
  intros H0 H1 H2 bs.
  induction bs as [bs IH] using (induction_ltof1 _ (@length byte)).
  destruct bs as [|b1 [|b2 rest]]; auto.
  apply H2, IH. unfold ltof. simpl. lia.
Qed.

Lemma lookup_place (ws : list Z) (m : gmap Z Z) (a j : Z) :
  place m a ws !! j =
    if (a <=? j) && (j <? a + Z.of_nat (length ws))
    then ws !! Z.to_nat (j - a)
    else m !! j.
Proof.
  revert m a. induction ws as [|w ws IH]; intros m a; cbn [place length].
  - destruct (Z.leb_spec a j), (Z.ltb_spec j (a + Z.of_nat 0));
      cbn [andb]; try reflexivity; lia.
  - rewrite IH.
    destruct (Z.leb_spec a j), (Z.ltb_spec j (a + Z.of_nat (S (length ws))));
      destruct (Z.leb_spec (a + 1) j), (Z.ltb_spec j (a + 1 + Z.of_nat (length ws)));
      cbn [andb]; try lia.
    + replace (Z.to_nat (j - a)) with (S (Z.to_nat (j - (a + 1)))) by lia. reflexivity.
    + assert (j = a) as -> by lia. rewrite lookup_insert_eq.
      replace (Z.to_nat (a - a)) with 0%nat by lia. reflexivity.
    + rewrite lookup_insert_ne by lia. reflexivity.
    + rewrite lookup_insert_ne by lia. reflexivity.
Qed.

Lemma load_words_Ok (bs : list byte) (m : gmap Z Z) (a : Z) :
  0 <= a -> a + Z.of_nat (length (words_of bs)) <= 65536 ->
  load_words m a bs = Ok (place m a (words_of bs)).
Proof.
  revert m a. induction bs as [|b|b1 b2 rest IH] using byte_pairs_ind;
    intros m a Ha Hn; try reflexivity.
  cbn [load_words words_of place length] in *. unfold mem_set, in_memory.
  replace (0 <=? a) with true by (symmetry; apply Z.leb_le; lia).
  replace (a <? 65536) with true by (symmetry; apply Z.ltb_lt; lia).
  cbn [andb bind]. apply IH; lia.
Qed.

Lemma load_words_Fault (bs : list byte) (m : gmap Z Z) (a : Z) :
  words_of bs <> [] ->
  a < 0 \/ 65536 < a + Z.of_nat (length (words_of bs)) ->
  exists i, load_words m a bs = Fault (MemOutOfBounds i) /\
            (i < 0 \/ 65536 <= i) /\ a <= i < a + Z.of_nat (length (words_of bs)).
Proof.
  revert m a. induction bs as [|b|b1 b2 rest IH] using byte_pairs_ind;
    intros m a Hne Hout; try (cbn in Hne; congruence).
  cbn [load_words words_of length] in *. unfold mem_set, in_memory.
  destruct (Z.leb_spec 0 a), (Z.ltb_spec a 65536); cbn [andb bind];
    try (exists a; split; [reflexivity | lia]).
  destruct (IH (<[a := swapped b1 b2]> m) (a + 1)) as (i & -> & Hi & Hr).
  - destruct (words_of rest); [cbn in Hout; lia | discriminate].
  - lia.
  - exists i. split; [reflexivity | lia].
Qed.

(** X6.  loadFile of a file whose start address [a] is not negative and
    whose words fit below the end of [memory] sets PC to [a], puts the
    i-th big-endian word of the body in [memory[a + i]], leaves every
    other cell as it was, and returns [a]; registers, IR, PSR, display
    and MCR are not touched. *)
Theorem loadFile_places_the_words
    (b1 b2 : byte) (body : list byte) (s : LC3) :
  0 <= swapped b1 b2 ->
  swapped b1 b2 + Z.of_nat (length (words_of body)) <= 65536 ->
  exists s',
    loadFile (b1 :: b2 :: body) s = Ok (swapped b1 b2, s') /\
    pc s' = swapped b1 b2 /\
    (forall i w, words_of body !! i = Some w ->
                 memory s' !! (swapped b1 b2 + Z.of_nat i) = Some w) /\
    (forall j, j < swapped b1 b2 \/
               swapped b1 b2 + Z.of_nat (length (words_of body)) <= j ->
               memory s' !! j = memory s !! j) /\
    regs s' = regs s /\ ir s' = ir s /\ psr s' = psr s /\
    display s' = display s /\ mcr s' = mcr s.
Proof.
  intros Ha Hn. cbn [loadFile]. cbn [memory with_pc].
  rewrite load_words_Ok by assumption. cbn [bind].
  eexists. split; [reflexivity|]. cbn [pc memory regs ir psr display mcr with_memory with_pc].
  repeat split.
  - intros i w Hw. rewrite lookup_place.
    apply lookup_lt_Some in Hw as Hlt.
    replace (swapped b1 b2 <=? swapped b1 b2 + Z.of_nat i) with true
      by (symmetry; apply Z.leb_le; lia).
    replace (swapped b1 b2 + Z.of_nat i <?
             swapped b1 b2 + Z.of_nat (length (words_of body))) with true
      by (symmetry; apply Z.ltb_lt; lia).
    cbn [andb]. replace (Z.to_nat (swapped b1 b2 + Z.of_nat i - swapped b1 b2)) with i by lia.
    exact Hw.
  - intros j Hj. rewrite lookup_place.
    destruct (Z.leb_spec (swapped b1 b2) j),
      (Z.ltb_spec j (swapped b1 b2 + Z.of_nat (length (words_of body))));
      cbn [andb]; try reflexivity; lia.
Qed.

Lemma loadFile_places_the_words_witness :
  exists s',
    loadFile (x30 :: x00 :: [x20; x04; x70; x40; xff]) globals = Ok (12288, s') /\
    pc s' = 12288 /\
    (forall i w, words_of [x20; x04; x70; x40; xff] !! i = Some w ->
                 memory s' !! (12288 + Z.of_nat i) = Some w) /\
    (forall j, j < 12288 \/
               12288 + Z.of_nat (length (words_of [x20; x04; x70; x40; xff])) <= j ->
               memory s' !! j = memory globals !! j) /\
    regs s' = regs globals /\ ir s' = ir globals /\ psr s' = psr globals /\
    display s' = display globals /\ mcr s' = mcr globals.
Proof.
  apply (loadFile_places_the_words x30 x00 [x20; x04; x70; x40; xff] globals);
    vm_compute; discriminate.
Defined.

(** X7.  loadFile of a file with a start address succeeds exactly when the
    body holds no word or the words lie within [memory]: a start address
    with bit 15 set is a negative subscript, so such a file loads only if
    it has no word, and a file is refused as well when its words run past
    cell 65535.  When it fails, it failed on a subscript outside
    0..65535. *)
Theorem loadFile_stays_in_memory_or_fails
    (b1 b2 : byte) (body : list byte) (s : LC3) :
  match loadFile (b1 :: b2 :: body) s with
  | Ok _ =>
      words_of body = [] \/
      (0 <= swapped b1 b2 /\
       swapped b1 b2 + Z.of_nat (length (words_of body)) <= 65536)
  | Fault f =>
      words_of body <> [] /\
      (swapped b1 b2 < 0 \/
       65536 < swapped b1 b2 + Z.of_nat (length (words_of body))) /\
      exists i, f = MemOutOfBounds i /\ (i < 0 \/ 65536 <= i)
  end.
Proof.
  cbn [loadFile]. cbn [memory with_pc].
  destruct (words_of body) as [|w ws] eqn:Hw.
  - assert (Hl : load_words (memory s) (swapped b1 b2) body = Ok (memory s)).
    { destruct body as [|c1 [|c2 rest]]; try reflexivity. discriminate Hw. }
    rewrite Hl. cbn [bind]. by left.
  - destruct (Z.leb_spec 0 (swapped b1 b2)) as [Ha|Ha];
      [destruct (Z.leb_spec (swapped b1 b2 + Z.of_nat (length (w :: ws))) 65536) as [Hn|Hn]|].
    + rewrite load_words_Ok by (rewrite ?Hw; assumption). cbn [bind]. right. auto.
    + destruct (load_words_Fault body (memory s) (swapped b1 b2)) as (i & -> & Hi & _);
        [by rewrite Hw | rewrite Hw; lia |].
      cbn [bind]. split; [discriminate|]. split; [lia | eauto].
    + destruct (load_words_Fault body (memory s) (swapped b1 b2)) as (i & -> & Hi & _);
        [by rewrite Hw | lia |].
      cbn [bind]. split; [discriminate|]. split; [lia | eauto].
Qed.

Lemma load_words_snoc (bs : list byte) (b : byte) (m : gmap Z Z) (a : Z) :
  Nat.Even (length bs) -> load_words m a (bs ++ [b]) = load_words m a bs.
Proof.
  revert m a. induction bs as [|c|b1 b2 rest IH] using byte_pairs_ind; intros m a Hev.
  - reflexivity.
  - destruct Hev as [k Hk]. simpl in Hk. lia.
  - cbn [app load_words length] in *. rewrite Nat.Even_succ_succ in Hev.
    destruct (mem_set m a _); cbn [bind]; [by apply IH | reflexivity].
Qed.

(** X8.  A byte left over after the last whole word of a file is not
    loaded: a file of an even number of bytes, the start address
    included, loads the same with one more byte at its end. *)
Theorem loadFile_ignores_a_trailing_byte (file : list byte) (b : byte) (s : LC3) :
  (2 <= length file)%nat -> Nat.Even (length file) ->
  loadFile (file ++ [b]) s = loadFile file s.
Proof.
  intros Hlen Hev. destruct file as [|b1 [|b2 body]]; cbn [length] in Hlen; try lia.
  cbn [app loadFile length] in *. rewrite Nat.Even_succ_succ in Hev.
  by rewrite load_words_snoc.
Qed.

Lemma loadFile_ignores_a_trailing_byte_witness :
  loadFile ([x30; x00; x20; x04] ++ [x70]) globals =
  loadFile [x30; x00; x20; x04] globals.
Proof.
  apply (loadFile_ignores_a_trailing_byte [x30; x00; x20; x04] x70 globals).
  - simpl. lia.
  - exists 2%nat. reflexivity.
Defined.

Lemma load_words_place (bs : list byte) (m m' : gmap Z Z) (a : Z) :
  load_words m a bs = Ok m' -> m' = place m a (words_of bs).
Proof.
  revert m a. induction bs as [|b|b1 b2 rest IH] using byte_pairs_ind;
    intros m a; cbn [load_words words_of place]; try (by intros [= <-]).
  unfold mem_set. destruct (in_memory a); cbn [bind]; [apply IH | discriminate].
Qed.

Lemma load_files_app (l1 l2 : list (list byte)) (s : LC3) :
  load_files (l1 ++ l2) s = (do s1 <~ load_files l1 s; load_files l2 s1).
Proof.
  revert s. induction l1 as [|file l1 IH]; intros s; cbn [app load_files bind].
  - reflexivity.
  - destruct (loadFile file s) as [[a s1]|]; cbn [bind snd]; [apply IH | reflexivity].
Qed.

Lemma load_files_ir (argv : list (list byte)) (s s' : LC3) :
  load_files argv s = Ok s' -> ir s' = ir s.
Proof.
  revert s. induction argv as [|file argv IH]; intros s; cbn [load_files].
  - by intros [= <-].
  - destruct (loadFile file s) as [[a s1]|] eqn:E; cbn [bind snd]; [|discriminate].
    intros H. rewrite (IH _ H). unfold loadFile in E.
    destruct file as [|b1 [|b2 body]]; try discriminate.
    destruct (load_words _ _ _); cbn [bind] in E; [|discriminate].
    by injection E as _ <-.
Qed.

(** X9.  When the files are loaded in order and [init] has run, the loop
    is entered at the start address of the last file, with the words of
    that file in [memory] from that address on, over whatever the earlier
    files put there; R0..R7 and IR are 0, Z is the condition code set,
    the display is idle with data 0 and the MCR is x8000. *)
Theorem boot_enters_at_the_last_file
    (argv : list (list byte)) (b1 b2 : byte) (body : list byte) (s0 : LC3) :
  boot (argv ++ [b1 :: b2 :: body]) = Ok s0 ->
  pc s0 = swapped b1 b2 /\
  (forall i w, words_of body !! i = Some w ->
               memory s0 !! (swapped b1 b2 + Z.of_nat i) = Some w) /\
  regs s0 = replicate 8 0 /\ ir s0 = 0 /\
  psr s0 = {| junk := 0; psr_p := 0; psr_n := 0; psr_z := 1 |} /\
  display s0 = {| status := -32768; data := 0 |} /\
  mcr s0 = -32768.
Proof.
  intros Hboot. pose proof (boot_Ok _ _ Hboot) as (Hm & Hp & Hr & Hd).
  unfold boot in Hboot. rewrite load_files_app in Hboot.
  destruct (load_files argv globals) as [s|] eqn:E1; cbn [bind] in Hboot; [|discriminate].
  apply load_files_ir in E1 as Hir.
  cbn [load_files loadFile] in Hboot.
  destruct (load_words _ _ body) as [m|] eqn:E2; cbn [bind snd] in Hboot; [|discriminate].
  injection Hboot as <-. apply load_words_place in E2 as ->.
  cbn [memory with_pc] . unfold init.
  cbn [pc memory ir with_mcr with_psr with_display with_memory with_pc].
  split; [reflexivity|]. split; [|by rewrite Hir].
  intros i w Hw. rewrite lookup_place. apply lookup_lt_Some in Hw as Hlt.
  replace (swapped b1 b2 <=? swapped b1 b2 + Z.of_nat i) with true
    by (symmetry; apply Z.leb_le; lia).
  replace (swapped b1 b2 + Z.of_nat i <?
           swapped b1 b2 + Z.of_nat (length (words_of body))) with true
    by (symmetry; apply Z.ltb_lt; lia).
  cbn [andb]. replace (Z.to_nat (swapped b1 b2 + Z.of_nat i - swapped b1 b2)) with i by lia.
  exact Hw.
Qed.

(** [clear_DSR] loaded first, [print_A] last: the loop is entered at x3000
    with the first word of [print_A], x2004, there. *)
Lemma boot_enters_at_the_last_file_witness :
  pc (the_state (boot [clear_DSR; print_A])) = 12288 /\
  memory (the_state (boot [clear_DSR; print_A])) !! 12288 = Some 8196.
Proof.
  assert (Hboot : boot ([clear_DSR] ++ [x30 :: x00 ::
             [x20; x04; x22; x04; x70; x40; x24; x03; x76; x80;
              x00; x41; xfe; x06; xff; xfe]]) =
          Ok (the_state (boot [clear_DSR; print_A]))) by (vm_compute; reflexivity).
  destruct (boot_enters_at_the_last_file _ _ _ _ _ Hboot) as (Hpc & Hmem & _).
  split; [exact Hpc|]. apply (Hmem 0%nat). reflexivity.
Defined.

(** ** What main prints and returns *)

Lemma emit_Exited (pre out : list event) (o : outcome) (code : Z) (s : LC3) :
  emit pre o = Exited code out s ->
  exists out', o = Exited code out' s /\ out = pre ++ out'.
Proof. destruct o; cbn; intros [= <- <- <-] || intros [=]; eauto. Qed.

Lemma main_loop_events (fuel : nat) (s : LC3) (e : event) :
  In e (out_of (main_loop fuel s)) ->
  (exists c, e = Printf_c c /\ 0 <= c < 256) \/
  (exists opcode p, e = Fprintf_stderr opcode p /\
                    (opcode = 8 \/ opcode = 9 \/ opcode = 13)) \/
  e = Getchar.
Proof.
  revert s. induction fuel as [|fuel IH]; intros s; cbn [main_loop].
  - destruct (_ =? 0); cbn; tauto.
  - destruct (_ =? 0); [cbn; tauto|].
    assert (Hd : In e (fst (drain s)) -> exists c, e = Printf_c c /\ 0 <= c < 256).
    { rewrite drain_out. destruct (_ =? 0); cbn; [|tauto].
      intros [<- | []]. eexists. split; [reflexivity|].
      rewrite Z.land_comm. change 255 with (Z.ones 8). rewrite Z.land_ones by lia.
      apply Z.mod_pos_bound. reflexivity. }
    destruct (cycle_cases s) as [(f & _ & ->) | (s2 & Hf & Hc)]; [cbn; auto|].
    destruct Hc as [(s1 & He & ->) | [(_ & Hop & ->) | (f & _ & ->)]].
    + rewrite out_of_emit, in_app_iff. intros [Hin|Hin]; [auto | eauto].
    + cbn [out_of]. rewrite in_app_iff. cbn [In].
      intros [Hin | [<- | [<- | []]]]; [auto | right; left; eauto | auto].
    + cbn. auto.
Qed.

(** X10.  Every character main writes to standard output through the
    display is a byte, 0..255, whatever the program stored to DDR. *)
Theorem printed_characters_are_bytes
    (fuel : nat) (argv : list (list byte)) (c : Z) :
  In (Printf_c c) (out_of (main fuel argv)) -> 0 <= c < 256.
Proof.
  unfold main. destruct argv as [|file argv].
  - cbn. intros [H | []]. discriminate H.
  - destruct (boot (file :: argv)) as [s0|f]; [|cbn; tauto].
    intros H. apply main_loop_events in H as [(c' & [= <-] & Hc) | [(? & ? & H & _) | H]];
      [exact Hc | discriminate H | discriminate H].
Qed.

Lemma printed_characters_are_bytes_witness : 0 <= 65 < 256.
Proof.
  apply (printed_characters_are_bytes 4 [print_A] 65).
  vm_compute. left. reflexivity.
Defined.

Lemma power_off_after (s s' : LC3) :
  MCR_POWER (mcr s) <> 0 -> execute s = Running [] s' -> MCR_POWER (mcr s') = 0 ->
  exists v, store_of s = Some (MCR_ADRESS, v) /\ Z.testbit v 15 = false /\
            s' = with_mcr s v.
Proof.
  intros Hon He Hoff. apply execute_Running in He as (_ & _ & _ & Hst).
  destruct (store_of s) as [[a v]|]; [|destruct Hst as (_ & Hm & _); congruence].
  unfold router_write in Hst.
  destruct (a =? DSR); [injection Hst as <-; contradiction|].
  destruct (a =? DDR); [injection Hst as <-; contradiction|].
  destruct (a =? MCR_ADRESS) eqn:Ha.
  - injection Hst as <-. apply Z.eqb_eq in Ha as ->. exists v.
    split; [reflexivity|]. split; [|reflexivity].
    cbn [mcr with_mcr] in Hoff. rewrite MCR_POWER_testbit in Hoff.
    destruct (Z.testbit v 15); [discriminate Hoff | reflexivity].
  - destruct (mem_set _ _ _); [|discriminate Hst]. injection Hst as <-. contradiction.
Qed.

Lemma main_loop_Exited (fuel : nat) (s s' : LC3) (code : Z) (out : list event) :
  MCR_POWER (mcr s) <> 0 ->
  main_loop fuel s = Exited code out s' ->
  (code = 0 /\ exists s2 v, store_of s2 = Some (MCR_ADRESS, v) /\
                            Z.testbit v 15 = false /\ s' = with_mcr s2 v) \/
  (code = 1 /\ (OPCODE (ir s') = 8 \/ OPCODE (ir s') = 9 \/ OPCODE (ir s') = 13)).
Proof.
  revert s out. induction fuel as [|fuel IH]; intros s out Hon; cbn [main_loop];
    apply Z.eqb_neq in Hon as Hb; rewrite Hb; [discriminate|].
  destruct (cycle_cases s) as [(f & _ & ->) | (s2 & Hf & Hc)]; [discriminate|].
  destruct (fetch_frame _ _ Hf) as (Hm2 & _). destruct (drain_frame s) as (Hm1 & _).
  destruct Hc as [(s1 & He & ->) | [(_ & Hop & ->) | (f & _ & ->)]]; [| |discriminate].
  - intros H. apply emit_Exited in H as (out' & H & _).
    destruct (Z.eq_dec (MCR_POWER (mcr s1)) 0) as [Hoff|Hon1]; [|eauto].
    assert (Hs1 : main_loop fuel s1 = Exited 0 [] s1).
    { apply Z.eqb_eq in Hoff. destruct fuel; cbn [main_loop]; by rewrite Hoff. }
    rewrite Hs1 in H. injection H as <- _ <-. left. split; [reflexivity|].
    destruct (power_off_after s2 s1) as (v & Hv); [congruence | done | done |].
    eauto.
  - intros [= <- _ <-]. auto.
Qed.

(** X11.  main returns 0 only after a store routed to the MCR whose value
    has bit 15 clear, and then in the state that store left; it returns 1
    only when it was given no file, having printed the usage message and
    nothing else, or when the word last fetched has opcode 8, 9 or 13. *)
Theorem main_exit_codes
    (fuel : nat) (argv : list (list byte)) (code : Z) (out : list event) (s : LC3) :
  main fuel argv = Exited code out s ->
  (code = 0 /\ argv <> [] /\
   exists s2 v, store_of s2 = Some (MCR_ADRESS, v) /\ Z.testbit v 15 = false /\
                s = with_mcr s2 v) \/
  (code = 1 /\ argv = [] /\ out = [Printf_usage]) \/
  (code = 1 /\ argv <> [] /\
   (OPCODE (ir s) = 8 \/ OPCODE (ir s) = 9 \/ OPCODE (ir s) = 13)).
Proof.
  unfold main. destruct argv as [|file argv].
  - intros [= <- <- _]. auto.
  - destruct (boot (file :: argv)) as [s0|f] eqn:Hboot; [|discriminate].
    intros H. apply boot_Ok in Hboot as (Hm & _).
    apply main_loop_Exited in H as [(-> & Hst) | (-> & Hop)].
    + left. auto.
    + right; right. auto.
    + rewrite Hm. vm_compute. discriminate.
Qed.

Lemma main_exit_codes_witness :
  (0 = 0 /\ [print_A] <> [] /\
   exists s2 v, store_of s2 = Some (MCR_ADRESS, v) /\ Z.testbit v 15 = false /\
                after 5 (start print_A) = with_mcr s2 v) \/
  (0 = 1 /\ [print_A] = [] /\ [Printf_c 65] = [Printf_usage]) \/
  (0 = 1 /\ [print_A] <> [] /\
   (OPCODE (ir (after 5 (start print_A))) = 8 \/
    OPCODE (ir (after 5 (start print_A))) = 9 \/
    OPCODE (ir (after 5 (start print_A))) = 13)).
Proof.
  apply (main_exit_codes 5 [print_A] 0 [Printf_c 65] (after 5 (start print_A))).
  vm_compute. reflexivity.
Defined.

(** ** What an instruction leaves alone *)

Lemma reg_set_lookup_ne (r r' : list Z) (i v : Z) (j : nat) :
  reg_set r i v = Ok r' -> i <> Z.of_nat j -> r' !! j = r !! j.
Proof.
  unfold reg_set. destruct (Z.leb_spec 0 i); cbn [andb]; [|discriminate].
  destruct (_ <? _); [|discriminate]. intros [= <-] Hne.
  apply list_lookup_insert_ne. lia.
Qed.

Ltac frame_loaded H :=
  apply load_dr_Ok in H; destruct H as (r & v & Hr & _ & ->);
  cbn [ir pc psr regs memory display mcr with_psr with_regs];
  repeat split; try discriminate;
  [ apply (reg_set_length _ _ _ _ Hr)
  | intros i Hi; apply (reg_set_lookup_ne _ _ _ _ _ Hr); congruence ].

Ltac frame_stored H :=
  apply router_write_Ok in H; destruct H as (Hp & Hr & Hpc & Hi);
  repeat split; intros; try discriminate; try assumption; by rewrite Hr.

(** X12.  An executed instruction prints nothing and keeps IR.  Only ST,
    STI and STR can change memory, the display or the MCR; only BR, JSR,
    RET and TRAP can change the PC; only ADD, AND, LD, LDI, LDR and LEA
    can change the condition codes; and the only register that can
    change is the DR of those six, or R7 for JSR and TRAP. *)
Theorem execute_changes_only_what_the_instruction_names
    (s s' : LC3) (out : list event) :
  execute s = Running out s' ->
  out = [] /\ ir s' = ir s /\
  (is_store (OPCODE (ir s)) = false ->
   memory s' = memory s /\ display s' = display s /\ mcr s' = mcr s) /\
  (is_jump (OPCODE (ir s)) = false -> pc s' = pc s) /\
  (sets_cc (OPCODE (ir s)) = false -> psr s' = psr s) /\
  length (regs s') = length (regs s) /\
  (forall i : nat, written_reg (ir s) <> Some (Z.of_nat i) ->
                   regs s' !! i = regs s !! i).
Proof.
  intros H. unfold execute in H. unfold written_reg.
  rewrite int16_OPCODE in *.
  destruct (OPCODE_cases (ir s)) as
    [Hop|[Hop|[Hop|[Hop|[Hop|[Hop|[Hop|[Hop|[Hop|[Hop|[Hop|[Hop|[Hop|[Hop|[Hop|Hop]]]]]]]]]]]]]]];
    rewrite Hop in *; simpl in H; try discriminate H;
    apply continue_Running in H; destruct H as [-> H]; (split; [reflexivity|]);
    cbn [is_store is_jump sets_cc written_reg orb Z.eqb Pos.eqb
         ADD_OP AND_OP LD_OP LDI_OP LDR_OP BR_OP ST_OP STI_OP STR_OP LEA_OP
         JSR_OP RET_OP TRAP_OP].
  - (* BR *)
    rewrite br_taken_or_not in H. injection H as <-.
    destruct (br_taken s); cbn; repeat split; auto; discriminate.
  - (* ADD *)
    destruct (negb _).
    + rewrite addImm_alu in H. bind_Ok H. frame_loaded H.
    + rewrite addRegs_alu in H. bind_Ok H. bind_Ok H. frame_loaded H.
  - (* LD *)
    rewrite ld_router in H. bind_Ok H. frame_loaded H.
  - (* ST *)
    rewrite st_router in H. bind_Ok H. frame_stored H.
  - (* JSR *)
    rewrite jsr_link in H. bind_Ok H. injection H as <-.
    cbn [ir pc psr regs memory display mcr with_pc with_regs].
    repeat split; try discriminate;
      [ apply (reg_set_length _ _ _ _ E)
      | intros i Hi; apply (reg_set_lookup_ne _ _ _ _ _ E); congruence ].
  - (* AND *)
    destruct (negb _).
    + rewrite andImm_alu in H. bind_Ok H. frame_loaded H.
    + rewrite andRegs_alu in H. bind_Ok H. bind_Ok H. frame_loaded H.
  - (* LDR *)
    rewrite ldr_router in H. bind_Ok H. bind_Ok H. frame_loaded H.
  - (* STR *)
    rewrite str_router in H. bind_Ok H. bind_Ok H. frame_stored H.
  - (* LDI *)
    rewrite ldi_router in H. bind_Ok H. bind_Ok H. frame_loaded H.
  - (* STI *)
    rewrite sti_router in H. bind_Ok H. bind_Ok H. frame_stored H.
  - (* RET *)
    unfold ret in H. bind_Ok H. injection H as <-. cbn.
    repeat split; auto; discriminate.
  - (* LEA *)
    rewrite lea_load_dr in H. frame_loaded H.
  - (* TRAP *)
    rewrite trap_vector in H. bind_Ok H. bind_Ok H. injection H as <-.
    cbn [ir pc psr regs memory display mcr with_pc with_regs].
    repeat split; try discriminate;
      [ apply (reg_set_length _ _ _ _ E)
      | intros i Hi; apply (reg_set_lookup_ne _ _ _ _ _ E); congruence ].
Qed.

(** LD R0,#4, the first instruction of [print_A], changes R0 and the
    condition codes and nothing else. *)
Lemma execute_changes_only_what_the_instruction_names_witness :
  pc (after 1 (start print_A)) = pc (fetched (start print_A)) /\
  memory (after 1 (start print_A)) = memory (fetched (start print_A)) /\
  regs (after 1 (start print_A)) !! 1%nat = regs (fetched (start print_A)) !! 1%nat.
Proof.
  assert (He : execute (fetched (start print_A)) = Running [] (after 1 (start print_A)))
    by (vm_compute; reflexivity).
  destruct (execute_changes_only_what_the_instruction_names _ _ _ He)
    as (_ & _ & Hst & Hj & _ & _ & Hreg).
  split; [apply Hj; vm_compute; reflexivity|].
  split; [apply Hst; vm_compute; reflexivity|].
  apply Hreg. vm_compute. discriminate.
Defined.

(** ** Storing and loading *)

Lemma router_write_then_read (s s1 : LC3) (a x : Z) :
  router_write s a x = Ok s1 ->
  router_read (snd (drain s1)) a =
    Ok (if (a =? DSR) && (x =? 0) then -32768 else x).
Proof.
  unfold router_write, router_read, drain, DISPLAY_SET.
  destruct (a =? DSR) eqn:H1; [|destruct (a =? DDR) eqn:H2;
                                 [|destruct (a =? MCR_ADRESS) eqn:H3]].
  - intros [= <-]. cbn [display with_display status andb].
    destruct (x =? 0) eqn:Hx; cbn [snd display with_display status]; [reflexivity|].
    reflexivity.
  - intros [= <-]. cbn [display with_display status data andb snd]. reflexivity.
  - intros [= <-]. cbn [andb display with_mcr].
    destruct (status (display s) =? 0); reflexivity.
  - unfold mem_set, mem_get. destruct (in_memory a); cbn [bind]; [|discriminate].
    intros [= <-]. cbn [andb display with_memory].
    destruct (status (display s) =? 0); cbn [snd memory with_display with_memory];
      by rewrite lookup_insert_eq.
Qed.

(** X13.  What STR stored is what an LDR with the same base register and
    offset loads in the next pass, after the display was drained, at
    every address the store reached: a cell of memory, DDR, the MCR, or
    DSR.  The one exception is a 0 stored to DSR: the drain prints and
    sets the status back, and the LDR loads x8000. *)
Theorem str_then_ldr (s s1 : LC3) (b x w p : Z) :
  str s = Ok s1 ->
  reg_get (regs s) (REG2 (ir s)) = Ok b ->
  reg_get (regs s) (REG1 (ir s)) = Ok x ->
  REG2 w = REG2 (ir s) -> sext 6 w = sext 6 (ir s) ->
  ldr (with_pc (with_ir (snd (drain s1)) w) p) =
    load_dr (with_pc (with_ir (snd (drain s1)) w) p)
      (if (int16 (b + sext 6 (ir s)) =? DSR) && (x =? 0) then -32768 else x).
Proof.
  intros Hstr Hb Hx Hw2 Hw6. rewrite str_router, Hb, Hx in Hstr. cbn [bind] in Hstr.
  apply router_write_Ok in Hstr as Hfr. destruct Hfr as (_ & Hr & _).
  apply router_write_then_read in Hstr.
  rewrite ldr_router. cbn [ir regs with_pc with_ir].
  destruct (drain_frame s1) as (_ & _ & Hr1 & _).
  rewrite Hr1, Hr, Hw2, Hw6, Hb. cbn [bind].
  replace (router_read (with_pc (with_ir (snd (drain s1)) w) p)
             (int16 (b + sext 6 (ir s))))
    with (router_read (snd (drain s1)) (int16 (b + sext 6 (ir s)))) by reflexivity.
  rewrite Hstr. reflexivity.
Qed.

(** The third pass of [print_A] is STR R0,R1,#0 with R0 = x41, R1 = xFE06;
    LDR R5,R1,#0, the word x6A40, then loads x41. *)
Lemma str_then_ldr_witness :
  ldr (with_pc (with_ir (snd (drain (after 3 (start print_A)))) 27200) 12292) =
    load_dr (with_pc (with_ir (snd (drain (after 3 (start print_A)))) 27200) 12292)
      (if (int16 (-506 + sext 6 (ir (fetched (after 2 (start print_A))))) =? DSR)
          && (65 =? 0)
       then -32768 else 65).
Proof.
  apply (str_then_ldr (fetched (after 2 (start print_A))) (after 3 (start print_A))
           (-506) 65 27200 12292); vm_compute; reflexivity.
Defined.

Lemma load_dr_total (s : LC3) (y : Z) :
  length (regs s) = 8%nat -> exists s', load_dr s y = Ok s'.
Proof.
  intros Hlen. unfold load_dr. rewrite int16_REG1.
  rewrite reg_set_in_bounds by (auto using REG1_range). cbn [bind regs with_regs].
  destruct (reg_get_in_bounds (<[Z.to_nat (REG1 (ir s)) := y]> (regs s))
              (REG1 (ir s))) as [v ->];
    [by rewrite length_insert | apply REG1_range |].
  cbn [bind]. eauto.
Qed.

(** X14.  LDR and STR reach the cells 0..x7FFF of memory and the three
    device registers, and nothing else: at any other address, one with
    bit 15 set, both fail on the negative subscript. *)
Theorem ldr_str_reach (s : LC3) (b : Z) :
  length (regs s) = 8%nat ->
  reg_get (regs s) (REG2 (ir s)) = Ok b ->
  (0 <= int16 (b + sext 6 (ir s)) \/ int16 (b + sext 6 (ir s)) = DSR \/
   int16 (b + sext 6 (ir s)) = DDR \/ int16 (b + sext 6 (ir s)) = MCR_ADRESS ->
   (exists s', ldr s = Ok s') /\ (exists s', str s = Ok s')) /\
  (int16 (b + sext 6 (ir s)) < 0 -> int16 (b + sext 6 (ir s)) <> DSR ->
   int16 (b + sext 6 (ir s)) <> DDR -> int16 (b + sext 6 (ir s)) <> MCR_ADRESS ->
   ldr s = Fault (MemOutOfBounds (int16 (b + sext 6 (ir s)))) /\
   str s = Fault (MemOutOfBounds (int16 (b + sext 6 (ir s))))).
Proof.
  intros Hlen Hb. rewrite ldr_router, str_router, Hb. cbn [bind].
  destruct (reg_get_in_bounds (regs s) (REG1 (ir s)) Hlen (REG1_range _)) as [x Hx].
  rewrite Hx. cbn [bind].
  pose proof (int16_range (b + sext 6 (ir s))) as Hrange.
  set (a := int16 (b + sext 6 (ir s))) in *. split.
  - intros Ha.
    assert (Hread : exists y, router_read s a = Ok y).
    { unfold router_read, mem_get, in_memory.
      destruct (a =? DSR) eqn:H1; [eauto|]. destruct (a =? DDR) eqn:H2; [eauto|].
      destruct (a =? MCR_ADRESS) eqn:H3; [eauto|].
      apply Z.eqb_neq in H1, H2, H3.
      replace (0 <=? a) with true by (symmetry; apply Z.leb_le; tauto).
      replace (a <? 65536) with true by (symmetry; apply Z.ltb_lt; lia).
      cbn. eauto. }
    destruct Hread as [y ->]. cbn [bind]. split.
    + by apply load_dr_total.
    + unfold router_write, mem_set, in_memory.
      destruct (a =? DSR) eqn:H1; [eauto|]. destruct (a =? DDR) eqn:H2; [eauto|].
      destruct (a =? MCR_ADRESS) eqn:H3; [eauto|].
      apply Z.eqb_neq in H1, H2, H3.
      replace (0 <=? a) with true by (symmetry; apply Z.leb_le; tauto).
      replace (a <? 65536) with true by (symmetry; apply Z.ltb_lt; lia).
      cbn. eauto.
  - intros Ha H1 H2 H3.
    destruct (router_negative_address s a x Ha H1 H2 H3) as [-> ->]. auto.
Qed.

(** The second pass of [load_x8000] is LDR R0,R1,#0 with R1 = x8000. *)
Lemma ldr_str_reach_witness :
  ldr (fetched (after 1 (start load_x8000))) = Fault (MemOutOfBounds (-32768)) /\
  str (fetched (after 1 (start load_x8000))) = Fault (MemOutOfBounds (-32768)).
Proof.
  assert (Hlen : length (regs (fetched (after 1 (start load_x8000)))) = 8%nat)
    by (vm_compute; reflexivity).
  assert (Hb : reg_get (regs (fetched (after 1 (start load_x8000))))
                 (REG2 (ir (fetched (after 1 (start load_x8000))))) = Ok (-32768))
    by (vm_compute; reflexivity).
  destruct (ldr_str_reach _ _ Hlen Hb) as [_ Hneg].
  apply Hneg; vm_compute; congruence.
Defined.

(** X15.  TRAP with a vector in x80..xFF never reaches a trap routine:
    the vector is sign-extended, and the pass fails on the subscript
    trapvect8 - 256 of memory, having printed nothing. *)
Theorem TRAP_high_vectors_fail (s : LC3) :
  length (regs s) = 8%nat ->
  OPCODE (ir s) = TRAP_OP ->
  128 <= zext 8 (ir s) ->
  execute s = Undefined (MemOutOfBounds (zext 8 (ir s) - 256)) [] /\
  -128 <= zext 8 (ir s) - 256 < 0.
Proof.
  intros Hlen Hop Hhigh. rewrite (execute_opcode s _ Hop). cbn.
  rewrite trap_high_vector by assumption. split; [reflexivity|].
  assert (zext 8 (ir s) < 256) by (apply Z.mod_pos_bound; reflexivity). lia.
Qed.

Lemma TRAP_high_vectors_fail_witness :
  execute (fetched (start trap_x80)) =
    Undefined (MemOutOfBounds (zext 8 (ir (fetched (start trap_x80))) - 256)) [] /\
  -128 <= zext 8 (ir (fetched (start trap_x80))) - 256 < 0.
Proof.
  apply (TRAP_high_vectors_fail (fetched (start trap_x80))); vm_compute;
    first [reflexivity | discriminate].
Defined.

(** ** ADD, AND and NOT *)

Lemma load_dr_write_dr (s : LC3) (d : Z) :
  length (regs s) = 8%nat -> load_dr s d = Ok (write_dr s d).
Proof.
  intros Hlen. unfold load_dr, write_dr. rewrite int16_REG1.
  rewrite reg_set_in_bounds by (auto using REG1_range). cbn [bind regs with_regs].
  unfold reg_get. pose proof (REG1_range (ir s)) as Hr.
  replace (0 <=? REG1 (ir s)) with true by (symmetry; apply Z.leb_le; lia).
  rewrite list_lookup_insert_eq by lia. cbn [bind].
  by rewrite updatePSR_CC_set_cc.
Qed.

Lemma testbit_int16 (v i : Z) :
  0 <= i < 16 -> Z.testbit (int16 v) i = Z.testbit v i.
Proof.
  intros Hi. rewrite <- (Z.mod_pow2_bits_low (int16 v) 16 i) by lia.
  rewrite <- (Z.mod_pow2_bits_low v 16 i) by lia.
  change (2 ^ 16) with 65536. f_equal. apply u16_int16.
Qed.

(** X16.  ADD never fails on the 8 registers: it puts in DR the sum of
    SR1 and of SR2 or the sign-extended imm5, reduced to 16 bits, so as
    16-bit numbers the result is the sum modulo 2^16; it sets the
    condition codes from the result and changes nothing else. *)
Theorem ADD_adds_modulo_2_16 (s : LC3) (a c : Z) :
  length (regs s) = 8%nat ->
  OPCODE (ir s) = ADD_OP ->
  reg_get (regs s) (REG2 (ir s)) = Ok a ->
  reg_get (regs s) (REG3 (ir s)) = Ok c ->
  execute s = Running [] (write_dr s (int16 (a + operand2 s c))) /\
  -32768 <= int16 (a + operand2 s c) < 32768 /\
  u16 (int16 (a + operand2 s c)) = (u16 a + u16 (operand2 s c)) mod 65536.
Proof.
  intros Hlen Hop Ha Hc. rewrite (execute_opcode s _ Hop). cbn [Z.eqb ADD_OP Pos.eqb].
  unfold operand2. split; [|split; [apply int16_range|]].
  - destruct (IMMBIT (ir s) =? 0); cbn [negb].
    + rewrite addRegs_alu, Ha, Hc. cbn [bind]. by rewrite load_dr_write_dr.
    + rewrite addImm_alu, Ha. cbn [bind]. by rewrite load_dr_write_dr.
  - rewrite u16_int16. unfold u16. by rewrite <- Zplus_mod.
Qed.

(** ADD R0,R0,#1, the word x1021, with R0 = x7FFF gives x8000. *)
Lemma ADD_adds_modulo_2_16_witness :
  execute (with_regs (with_ir globals 4129) [32767; 0; 0; 0; 0; 0; 0; 0]) =
    Running []
      (write_dr (with_regs (with_ir globals 4129) [32767; 0; 0; 0; 0; 0; 0; 0])
         (int16 (32767 +
                 operand2 (with_regs (with_ir globals 4129)
                             [32767; 0; 0; 0; 0; 0; 0; 0]) 0))) /\
  int16 (32767 + 1) = -32768.
Proof.
  split; [|reflexivity].
  apply (ADD_adds_modulo_2_16
           (with_regs (with_ir globals 4129) [32767; 0; 0; 0; 0; 0; 0; 0]) 32767 0);
    reflexivity.
Defined.

(** X17.  AND never fails on the 8 registers: each of the 16 bits of the
    value it puts in DR is the conjunction of that bit in SR1 and in SR2
    or the sign-extended imm5; it sets the condition codes from the
    result and changes nothing else. *)
Theorem AND_is_bitwise (s : LC3) (a c : Z) :
  length (regs s) = 8%nat ->
  OPCODE (ir s) = AND_OP ->
  reg_get (regs s) (REG2 (ir s)) = Ok a ->
  reg_get (regs s) (REG3 (ir s)) = Ok c ->
  execute s = Running [] (write_dr s (int16 (Z.land a (operand2 s c)))) /\
  (forall i, 0 <= i < 16 ->
     Z.testbit (int16 (Z.land a (operand2 s c))) i =
     Z.testbit a i && Z.testbit (operand2 s c) i).
Proof.
  intros Hlen Hop Ha Hc. rewrite (execute_opcode s _ Hop). cbn [Z.eqb ADD_OP AND_OP Pos.eqb].
  unfold operand2. split.
  - destruct (IMMBIT (ir s) =? 0); cbn [negb].
    + rewrite andRegs_alu, Ha, Hc. cbn [bind]. by rewrite load_dr_write_dr.
    + rewrite andImm_alu, Ha. cbn [bind]. by rewrite load_dr_write_dr.
  - intros i Hi. rewrite testbit_int16 by assumption. apply Z.land_spec.
Qed.

(** AND R0,R0,#0, the word x5020, clears R0. *)
Lemma AND_is_bitwise_witness :
  execute (with_regs (with_ir globals 20512) [1234; 0; 0; 0; 0; 0; 0; 0]) =
    Running []
      (write_dr (with_regs (with_ir globals 20512) [1234; 0; 0; 0; 0; 0; 0; 0])
         (int16 (Z.land 1234
                   (operand2 (with_regs (with_ir globals 20512)
                                [1234; 0; 0; 0; 0; 0; 0; 0]) 1234)))) /\
  int16 (Z.land 1234 0) = 0.
Proof.
  split; [|reflexivity].
  apply (AND_is_bitwise
           (with_regs (with_ir globals 20512) [1234; 0; 0; 0; 0; 0; 0; 0]) 1234 1234);
    reflexivity.
Defined.

(** X18.  The handler of NOT, which the switch never calls, puts in DR the
    complement of each of the 16 bits of SR, that is -SR - 1 reduced to
    16 bits, and sets the condition codes from it; applied twice with
    DR = SR it gives the register its value back. *)
Theorem not_complements_the_bits (s : LC3) (a : Z) :
  length (regs s) = 8%nat ->
  reg_get (regs s) (REG2 (ir s)) = Ok a ->
  not_ s = Ok (write_dr s (int16 (- a - 1))) /\
  (forall i, 0 <= i < 16 ->
     Z.testbit (int16 (- a - 1)) i = negb (Z.testbit a i)) /\
  int16 (- int16 (- a - 1) - 1) = int16 a.
Proof.
  intros Hlen Ha. rewrite not_alu, Ha. cbn [bind].
  rewrite load_dr_write_dr by assumption.
  replace (Z.lnot a) with (- a - 1) by (unfold Z.lnot, Z.pred; lia).
  split; [reflexivity|]. split.
  - intros i Hi. rewrite testbit_int16 by assumption.
    replace (- a - 1) with (Z.lnot a) by (unfold Z.lnot, Z.pred; lia).
    apply Z.lnot_spec. lia.
  - unfold int16. Z.div_mod_to_equations. lia.
Qed.

(** NOT R0,R0, the word x903F, with R0 = 5 gives -6. *)
Lemma not_complements_the_bits_witness :
  not_ (with_regs (with_ir globals (int16 36927)) [5; 0; 0; 0; 0; 0; 0; 0]) =
    Ok (write_dr (with_regs (with_ir globals (int16 36927)) [5; 0; 0; 0; 0; 0; 0; 0])
          (int16 (- 5 - 1))) /\
  (forall i, 0 <= i < 16 ->
     Z.testbit (int16 (- 5 - 1)) i = negb (Z.testbit 5 i)) /\
  int16 (- int16 (- 5 - 1) - 1) = int16 5.
Proof.
  apply (not_complements_the_bits
           (with_regs (with_ir globals (int16 36927)) [5; 0; 0; 0; 0; 0; 0; 0]) 5);
    reflexivity.
Defined.

(** ** The range of the machine words *)

Ltac split_ranged :=
  unfold ranged; repeat match goal with |- _ /\ _ => split end.

Lemma in16_0 : in16 0.
Proof. unfold in16. lia. Qed.

Lemma in16_default (m : gmap Z Z) (a : Z) :
  map_Forall (fun _ v => in16 v) m -> in16 (default 0 (m !! a)).
Proof.
  intros Hm. destruct (m !! a) as [x|] eqn:E; cbn [default];
    [by apply (Hm a x) | apply in16_0].
Qed.

Lemma in16_int16 (v : Z) : in16 (int16 v).
Proof. apply int16_range. Qed.

Lemma reg_get_ranged (r : list Z) (i v : Z) :
  Forall in16 r -> reg_get r i = Ok v -> in16 v.
Proof.
  intros Hr. unfold reg_get. destruct (0 <=? i); [|discriminate].
  destruct (r !! Z.to_nat i) as [x|] eqn:E; [|discriminate].
  intros [= <-]. eapply Forall_lookup_1; eauto.
Qed.

Lemma reg_set_ranged (r r' : list Z) (i v : Z) :
  Forall in16 r -> in16 v -> reg_set r i v = Ok r' -> Forall in16 r'.
Proof.
  intros Hr Hv. unfold reg_set. destruct (_ && _); [|discriminate].
  intros [= <-]. by apply Forall_insert.
Qed.

Lemma router_read_ranged (s : LC3) (a v : Z) :
  ranged s -> router_read s a = Ok v -> in16 v.
Proof.
  intros (Hm & Hmem & _ & _ & _ & Hst & Hda). unfold router_read, mem_get.
  destruct (a =? DSR); [by intros [= <-]|].
  destruct (a =? DDR); [by intros [= <-]|].
  destruct (a =? MCR_ADRESS); [by intros [= <-]|].
  destruct (in_memory a); [|discriminate]. intros [= <-].
  by apply in16_default.
Qed.

Lemma router_write_ranged (s s' : LC3) (a v : Z) :
  ranged s -> in16 v -> router_write s a v = Ok s' -> ranged s'.
Proof.
  intros (Hm & Hmem & Hr & Hpc & Hir & Hst & Hda) Hv. unfold router_write, mem_set.
  destruct (a =? DSR); [intros [= <-]; by split_ranged|].
  destruct (a =? DDR); [intros [= <-]; split_ranged; try done; apply in16_0|].
  destruct (a =? MCR_ADRESS); [intros [= <-]; by split_ranged|].
  destruct (in_memory a); cbn [bind]; [|discriminate]. intros [= <-].
  split_ranged; try done. cbn [memory with_memory]. by apply map_Forall_insert_2.
Qed.

Lemma load_dr_ranged (s s' : LC3) (x : Z) :
  ranged s -> in16 x -> load_dr s x = Ok s' -> ranged s'.
Proof.
  intros (Hm & Hmem & Hr & Hpc & Hir & Hst & Hda) Hx H.
  apply load_dr_Ok in H as (r & v & Hset & _ & ->).
  split_ranged; try done. cbn [regs with_psr with_regs].
  eapply reg_set_ranged; [exact Hr | exact Hx | exact Hset].
Qed.

Lemma execute_ranged (s s' : LC3) (out : list event) :
  ranged s -> execute s = Running out s' -> ranged s'.
Proof.
  intros Hs H. pose proof Hs as (Hm & Hmem & Hr & Hpc & Hir & Hst & Hda).
  unfold execute in H. rewrite int16_OPCODE in H.
  destruct (OPCODE_cases (ir s)) as
    [Hop|[Hop|[Hop|[Hop|[Hop|[Hop|[Hop|[Hop|[Hop|[Hop|[Hop|[Hop|[Hop|[Hop|[Hop|Hop]]]]]]]]]]]]]]];
    rewrite Hop in *; simpl in H; try discriminate H;
    apply continue_Running in H; destruct H as [-> H].
  - rewrite br_taken_or_not in H. injection H as <-.
    destruct (br_taken s); [|done]. split_ranged; try done. apply in16_int16.
  - destruct (negb _).
    + rewrite addImm_alu in H. bind_Ok H.
      eapply load_dr_ranged; [done | apply in16_int16 | exact H].
    + rewrite addRegs_alu in H. bind_Ok H. bind_Ok H.
      eapply load_dr_ranged; [done | apply in16_int16 | exact H].
  - rewrite ld_router in H. bind_Ok H.
    eapply load_dr_ranged; [done | eapply router_read_ranged; eauto | exact H].
  - rewrite st_router in H. bind_Ok H.
    eapply router_write_ranged; [done | eapply reg_get_ranged; eauto | exact H].
  - rewrite jsr_link in H. bind_Ok H. injection H as <-.
    split_ranged; try done; [|apply in16_int16].
    cbn [regs with_pc with_regs]. eapply reg_set_ranged; [exact Hr | exact Hpc | exact E].
  - destruct (negb _).
    + rewrite andImm_alu in H. bind_Ok H.
      eapply load_dr_ranged; [done | apply in16_int16 | exact H].
    + rewrite andRegs_alu in H. bind_Ok H. bind_Ok H.
      eapply load_dr_ranged; [done | apply in16_int16 | exact H].
  - rewrite ldr_router in H. bind_Ok H. bind_Ok H.
    eapply load_dr_ranged; [done | eapply router_read_ranged; eauto | exact H].
  - rewrite str_router in H. bind_Ok H. bind_Ok H.
    eapply router_write_ranged; [done | eapply reg_get_ranged; eauto | exact H].
  - rewrite ldi_router in H. bind_Ok H. bind_Ok H.
    eapply load_dr_ranged; [done | eapply router_read_ranged; eauto | exact H].
  - rewrite sti_router in H. bind_Ok H. bind_Ok H.
    eapply router_write_ranged; [done | eapply reg_get_ranged; eauto | exact H].
  - unfold ret in H. bind_Ok H. injection H as <-.
    split_ranged; try done. cbn [pc with_pc]. eapply reg_get_ranged; eauto.
  - rewrite lea_load_dr in H.
    eapply load_dr_ranged; [done | apply in16_int16 | exact H].
  - rewrite trap_vector in H. bind_Ok H. bind_Ok H. injection H as <-.
    split_ranged; try done.
    + cbn [regs with_pc with_regs]. eapply reg_set_ranged; [exact Hr | exact Hpc | exact E].
    + cbn [pc with_pc]. unfold mem_get in E0.
      destruct (in_memory _); [|discriminate E0]. injection E0 as <-.
      by apply in16_default.
Qed.

Lemma fetch_drain_ranged (s s2 : LC3) :
  ranged s -> fetch (snd (drain s)) = Ok s2 -> ranged s2.
Proof.
  intros (Hm & Hmem & Hr & Hpc & Hir & Hst & Hda) H.
  assert (Hd : ranged (snd (drain s))).
  { unfold drain. destruct (_ =? _); cbn [snd]; split_ranged; try done;
      apply in16_int16. }
  destruct Hd as (Hm' & Hmem' & Hr' & Hpc' & Hir' & Hst' & Hda').
  apply fetch_Ok in H as [_ ->]. split_ranged; try done.
  - apply in16_int16.
  - by apply in16_default.
Qed.

Lemma load_words_ranged (bs : list byte) (m m' : gmap Z Z) (a : Z) :
  map_Forall (fun _ v => in16 v) m -> load_words m a bs = Ok m' ->
  map_Forall (fun _ v => in16 v) m'.
Proof.
  revert m a. induction bs as [|b|b1 b2 rest IH] using byte_pairs_ind;
    intros m a Hm; cbn [load_words]; try (by intros [= <-]).
  unfold mem_set. destruct (in_memory a); cbn [bind]; [|discriminate].
  apply IH. apply map_Forall_insert_2; [apply in16_int16 | done].
Qed.

Lemma load_files_ranged (argv : list (list byte)) (s s' : LC3) :
  ranged s -> load_files argv s = Ok s' -> ranged s'.
Proof.
  revert s. induction argv as [|file argv IH]; intros s Hs; cbn [load_files].
  - by intros [= <-].
  - destruct (loadFile file s) as [[a s1]|] eqn:E; cbn [bind snd]; [|discriminate].
    apply IH. destruct Hs as (Hm & Hmem & Hr & Hpc & Hir & Hst & Hda).
    unfold loadFile in E. destruct file as [|b1 [|b2 body]]; try discriminate.
    destruct (load_words _ _ _) as [m|] eqn:Ew; cbn [bind] in E; [|discriminate].
    injection E as _ <-. apply load_words_ranged in Ew; [|done].
    split_ranged; try done. apply in16_int16.
Qed.

(** X19.  In every state in which the loop stops or is interrupted, every
    16-bit object of the machine holds a value of -32768..32767: the
    registers, every cell of memory, PC, IR, the MCR and the two display
    registers.  No arithmetic of a handler leaves the range of
    [int16_t]. *)
Theorem machine_words_stay_16_bit
    (argv : list (list byte)) (s0 s : LC3) (fuel : nat) :
  boot argv = Ok s0 ->
  state_of (main_loop fuel s0) = Some s ->
  ranged s.
Proof.
  intros Hboot. apply (main_loop_invariant ranged).
  - intros s1 s2 s' Hs Hf He. eapply execute_ranged; [|exact He].
    eapply fetch_drain_ranged; eauto.
  - intros s1 s2 Hs Hf. eapply fetch_drain_ranged; eauto.
  - unfold boot in Hboot.
    destruct (load_files argv globals) as [s1|] eqn:E; cbn [bind] in Hboot; [|discriminate].
    injection Hboot as <-.
    apply load_files_ranged in E as (Hm & Hmem & Hr & Hpc & Hir & Hst & Hda).
    + unfold init. split_ranged; try done; apply in16_int16.
    + split_ranged; try apply in16_0.
      * apply map_Forall_empty.
      * repeat constructor; apply in16_0.
Qed.

Lemma machine_words_stay_16_bit_witness : ranged (after 3 (start print_A)).
Proof.
  apply (machine_words_stay_16_bit [print_A] (start print_A) _ 3);
    vm_compute; reflexivity.
Defined.

(** ** printState and printMemory *)

Lemma land_65535 (v : Z) : Z.land v 65535 = u16 v.
Proof. change 65535 with (Z.ones 16). rewrite Z.land_ones by lia. reflexivity. Qed.

Lemma printState_regs_Ok (s : LC3) (l pre : list Z) :
  regs s = pre ++ l ->
  printState_regs (length l) (Z.of_nat (length pre)) s =
    Ok (imap (fun k v => Reg_line (Z.of_nat (length pre + k)) (u16 v) v) l).
Proof.
  revert pre. induction l as [|v l IH]; intros pre Hregs; cbn [length printState_regs].
  - reflexivity.
  - unfold reg_get.
    replace (0 <=? Z.of_nat (length pre)) with true by (symmetry; apply Z.leb_le; lia).
    rewrite Nat2Z.id, Hregs, list_lookup_middle by reflexivity. cbn [bind].
    replace (Z.of_nat (length pre) + 1) with (Z.of_nat (length (pre ++ [v])))
      by (rewrite length_app; cbn [length]; lia).
    rewrite (IH (pre ++ [v])) by (rewrite Hregs, <- app_assoc; reflexivity).
    cbn [bind]. rewrite imap_cons, land_65535, Nat.add_0_r. do 2 f_equal.
    apply imap_ext. intros k x _. cbn. rewrite length_app. cbn [length].
    do 2 f_equal. lia.
Qed.

Lemma execute_regs_length (s s' : LC3) (out : list event) :
  length (regs s) = 8%nat -> execute s = Running out s' -> length (regs s') = 8%nat.
Proof.
  intros Hlen He. destruct (execute_handler s) as [(h & Hin & Hh)|Hx]; [|congruence].
  pose proof (handlers_safe h s Hin Hlen) as Hsafe. rewrite Hh in He.
  destruct (h s); [|discriminate He]. by injection He as _ <-.
Qed.

(** X20.  Called in any state in which the loop stops or is interrupted,
    printState never fails: it prints the 8 registers in order, each as a
    16-bit number and as a signed one, then PC, the PSR word, IR and the
    condition code.  The PSR word is 4, 2 or 1 and the letter N, Z or P,
    for the one flag that is set; the blank is never printed. *)
Theorem printState_shows_one_condition_code
    (argv : list (list byte)) (s0 s : LC3) (fuel : nat) :
  boot argv = Ok s0 ->
  state_of (main_loop fuel s0) = Some s ->
  exists word letter,
    printState s =
      Ok (imap (fun i v => Reg_line (Z.of_nat i) (u16 v) v) (regs s) ++
          [PC_line (u16 (pc s)); PSR_line word; IR_line (u16 (ir s)); CC_line letter]) /\
    length (regs s) = 8%nat /\
    ((psr_n (psr s) = 1 /\ word = 4 /\ letter = x4e) \/
     (psr_z (psr s) = 1 /\ word = 2 /\ letter = x5a) \/
     (psr_p (psr s) = 1 /\ word = 1 /\ letter = x50)).
Proof.
  intros Hboot Hs.
  assert (Hinv : length (regs s) = 8%nat /\ cc_exclusive (psr s) /\ junk (psr s) = 0).
  { revert Hs.
    apply (main_loop_invariant
             (fun s => length (regs s) = 8%nat /\ cc_exclusive (psr s) /\
                       junk (psr s) = 0)).
    - intros s1 s2 s' (Hl & Hc & Hj) Hf He.
      apply fetch_frame in Hf as (_ & Hp & Hr & _).
      destruct (drain_frame s1) as (_ & Hp' & Hr' & _).
      rewrite <- Hp', <- Hp in Hc, Hj. rewrite <- Hr', <- Hr in Hl.
      split; [eapply execute_regs_length; eauto|].
      split; [eapply execute_cc_exclusive; eauto|].
      apply execute_cc in He. destruct (sets_cc _).
      + destruct He as (v & _ & ->). exact Hj.
      + by rewrite He.
    - intros s1 s2 (Hl & Hc & Hj) Hf.
      apply fetch_frame in Hf as (_ & Hp & Hr & _).
      destruct (drain_frame s1) as (_ & Hp' & Hr' & _).
      by rewrite Hp, Hp', Hr, Hr'.
    - apply boot_Ok in Hboot as (_ & -> & -> & _).
      split; [reflexivity|]. split; [|reflexivity]. right; left. auto. }
  destruct Hinv as (Hlen & Hcc & Hj).
  pose proof (printState_regs_Ok s (regs s) [] eq_refl) as Hregs.
  cbn [length Nat.add] in Hregs. change (Z.of_nat 0) with 0 in Hregs.
  rewrite Hlen in Hregs.
  unfold printState. change (Z.to_nat REG_COUNT) with 8%nat. rewrite Hregs.
  cbn [bind]. rewrite !land_65535, Hj.
  destruct Hcc as [(Hn & Hz & Hp) | [(Hn & Hz & Hp) | (Hn & Hz & Hp)]];
    rewrite Hn, Hz, Hp; eexists _, _; (split; [reflexivity|]); (split; [exact Hlen|]);
    cbn; tauto.
Qed.

Lemma printState_shows_one_condition_code_witness :
  exists word letter,
    printState (after 1 (start print_A)) =
      Ok (imap (fun i v => Reg_line (Z.of_nat i) (u16 v) v)
            (regs (after 1 (start print_A))) ++
          [PC_line (u16 (pc (after 1 (start print_A)))); PSR_line word;
           IR_line (u16 (ir (after 1 (start print_A)))); CC_line letter]) /\
    length (regs (after 1 (start print_A))) = 8%nat /\
    ((psr_n (psr (after 1 (start print_A))) = 1 /\ word = 4 /\ letter = x4e) \/
     (psr_z (psr (after 1 (start print_A))) = 1 /\ word = 2 /\ letter = x5a) \/
     (psr_p (psr (after 1 (start print_A))) = 1 /\ word = 1 /\ letter = x50)).
Proof.
  apply (printState_shows_one_condition_code [print_A] (start print_A) _ 1);
    vm_compute; reflexivity.
Defined.

Lemma printMemory_loop_cells (fuel : nat) (m : gmap Z Z) (from to : Z) :
  0 <= from -> to < 32768 -> to - from <= Z.of_nat fuel ->
  printMemory_loop fuel m from to =
    Some (Ok ((fun a => Cell_line a (u16 (default 0 (m !! a)))) <$>
              seqZ from (to - from))).
Proof.
  revert from. induction fuel as [|fuel IH]; intros from Hfrom Hto Hfuel;
    cbn [printMemory_loop]; destruct (Z.ltb_spec from to) as [Hlt|Hge];
    try (rewrite seqZ_nil by lia; reflexivity); [lia|].
  unfold mem_get, in_memory.
  replace (0 <=? from) with true by (symmetry; apply Z.leb_le; lia).
  replace (from <? 65536) with true by (symmetry; apply Z.ltb_lt; lia).
  cbn [andb]. rewrite int16_small by lia. rewrite IH by lia.
  rewrite (seqZ_cons from) by lia. cbn [fmap list_fmap].
  rewrite !land_65535. unfold u16 at 1. rewrite Z.mod_small by lia.
  replace (Z.succ from) with (from + 1) by lia.
  replace (Z.pred (to - from)) with (to - (from + 1)) by lia.
  reflexivity.
Qed.

(** X21.  printMemory prints the heading and then one line per cell from
    [from] up to, not including, [to], each with its address and its
    content as 16-bit numbers, [from] and [to] being taken as
    [int16_t]s: nothing but the heading when [from >= to], and a
    failure on the first subscript when [from] is negative and below
    [to].  The loop always ends.  So the dump of the 20 cells after PC,
    printMemory(pc, pc + 20), prints no cell once pc + 20 passes x7FFF. *)
Theorem printMemory_prints_the_cells_between (s : LC3) (from to : Z) :
  printMemory s from to =
    Some (if int16 from <? int16 to then
            if int16 from <? 0 then Fault (MemOutOfBounds (int16 from))
            else Ok (Memory_Contents ::
                     ((fun a => Cell_line a (u16 (default 0 (memory s !! a)))) <$>
                      seqZ (int16 from) (int16 to - int16 from)))
          else Ok [Memory_Contents]) /\
  (32748 <= from < 32768 -> printMemory s from (from + 20) = Some (Ok [Memory_Contents])).
Proof.
  assert (Hmain : forall f t, printMemory s f t =
    Some (if int16 f <? int16 t then
            if int16 f <? 0 then Fault (MemOutOfBounds (int16 f))
            else Ok (Memory_Contents ::
                     ((fun a => Cell_line a (u16 (default 0 (memory s !! a)))) <$>
                      seqZ (int16 f) (int16 t - int16 f)))
          else Ok [Memory_Contents])).
  { intros f t. unfold printMemory.
    pose proof (int16_range f) as Hf. pose proof (int16_range t) as Ht.
    destruct (Z.ltb_spec (int16 f) (int16 t)) as [Hlt|Hge].
    - destruct (Z.ltb_spec (int16 f) 0) as [Hneg|Hpos].
      + destruct (Z.to_nat 65536) as [|fuel] eqn:Hfuel; [lia|]. cbn [printMemory_loop].
        replace (int16 f <? int16 t) with true by (symmetry; apply Z.ltb_lt; lia).
        unfold mem_get, in_memory.
        replace (0 <=? int16 f) with false by (symmetry; apply Z.leb_gt; lia).
        reflexivity.
      + rewrite printMemory_loop_cells by lia. reflexivity.
    - destruct (Z.to_nat 65536) as [|fuel] eqn:Hfuel; [lia|]. cbn [printMemory_loop].
      replace (int16 f <? int16 t) with false by (symmetry; apply Z.ltb_ge; lia).
      reflexivity. }
  split; [apply Hmain|].
  intros Hfrom. rewrite Hmain. rewrite (int16_small from) by lia.
  assert (Hwrap : int16 (from + 20) = from + 20 - 65536).
  { unfold int16. Z.div_mod_to_equations. lia. }
  rewrite Hwrap.
  replace (from <? from + 20 - 65536) with false by (symmetry; apply Z.ltb_ge; lia).
  reflexivity.
Qed.

(** ** BR *)

(** X22.  When exactly one condition code is set, BR branches to
    PC + sext(PCoffset9) if the bit of the instruction that selects that
    code (bit 11 for N, 10 for Z, 9 for P) is set, and otherwise leaves
    the state as it is. *)
Theorem BR_branches_iff_the_set_flag_is_selected (s : LC3) :
  cc_exclusive (psr s) ->
  br s =
    Ok (if (psr_n (psr s) =? 1) && (BRN (ir s) =? 1) ||
           (psr_z (psr s) =? 1) && (BRZ (ir s) =? 1) ||
           (psr_p (psr s) =? 1) && (BRP (ir s) =? 1)
        then with_pc s (int16 (pc s + sext 9 (ir s)))
        else s).
Proof.
  intros Hcc. rewrite br_taken_or_not. unfold br_taken.
  pose proof (land1_range (Z.shiftr (ir s) 11)) as Hn.
  pose proof (land1_range (Z.shiftr (ir s) 10)) as Hz.
  pose proof (land1_range (Z.shiftr (ir s) 9)) as Hp.
  fold (BRN (ir s)) in Hn. fold (BRZ (ir s)) in Hz. fold (BRP (ir s)) in Hp.
  assert (Hn' : BRN (ir s) = 0 \/ BRN (ir s) = 1) by lia.
  assert (Hz' : BRZ (ir s) = 0 \/ BRZ (ir s) = 1) by lia.
  assert (Hp' : BRP (ir s) = 0 \/ BRP (ir s) = 1) by lia.
  destruct Hcc as [(-> & -> & ->) | [(-> & -> & ->) | (-> & -> & ->)]];
    destruct Hn' as [-> | ->], Hz' as [-> | ->], Hp' as [-> | ->]; reflexivity.
Qed.

(** BRz +2, the word x0402, in the state in which the loop is entered,
    where Z is set. *)
Lemma BR_branches_iff_the_set_flag_is_selected_witness :
  br (with_pc (with_ir (start print_A) 1026) 12289) =
    Ok (if (psr_n (psr (with_pc (with_ir (start print_A) 1026) 12289)) =? 1) &&
           (BRN (ir (with_pc (with_ir (start print_A) 1026) 12289)) =? 1) ||
           (psr_z (psr (with_pc (with_ir (start print_A) 1026) 12289)) =? 1) &&
           (BRZ (ir (with_pc (with_ir (start print_A) 1026) 12289)) =? 1) ||
           (psr_p (psr (with_pc (with_ir (start print_A) 1026) 12289)) =? 1) &&
           (BRP (ir (with_pc (with_ir (start print_A) 1026) 12289)) =? 1)
        then with_pc (with_pc (with_ir (start print_A) 1026) 12289)
               (int16 (pc (with_pc (with_ir (start print_A) 1026) 12289) +
                       sext 9 (ir (with_pc (with_ir (start print_A) 1026) 12289))))
        else with_pc (with_ir (start print_A) 1026) 12289).
Proof.
  apply (BR_branches_iff_the_set_flag_is_selected
           (with_pc (with_ir (start print_A) 1026) 12289)).
  right; left. vm_compute. auto.
Defined.
